(** * News-Article-Summarizer: a shallow embedding of [NAS.py]

    The development follows the source file top to bottom:

    - [PyStr]   Python [str] values as sequences of code points, with
                [str.split()], [str.strip()], [sep.join(...)], slicing and
                [range];
    - [PyFloat] the one floating-point expression of the program,
                [int(length * 0.8)], over IEEE 754 binary64;
    - [Html]    the part of a parsed document that [extract_text_from_url]
                looks at;
    - [NAS]     the functions of [NAS.py] themselves, in a small
                exception-and-trace monad, the external capabilities
                (HTTP client, HTML parser, PDF reader, summarization
                pipeline, speech synthesis) being the fields of a class;
    - [Obs]     what the statements observe of a trace, and the inputs of
                the examples;
    - [PyStrFacts], [NASFacts]  the lemmas and the theorems. *)

From Stdlib Require Import String Ascii.
From Stdlib Require Import List ZArith NArith Lia Bool PeanoNat.
From Stdlib Require Import Floats.SpecFloat.
Import ListNotations.

Set Implicit Arguments.
Set Warnings "-register-all,-abstract-large-number".

(* ================================================================== *)
(** ** Python strings *)
(* ================================================================== *)

Module PyStr.

(** A Python [str] is a sequence of Unicode code points. *)
Definition codepoint := N.
Definition pystr := list codepoint.

(** [of_string] reads an ASCII literal of the source as a [pystr]. *)
Fixpoint of_string (s : string) : pystr :=
  match s with
  | EmptyString => []
  | String c s' => N_of_ascii c :: of_string s'
  end.

Definition space : pystr := [32%N].

(** The characters [str.split()] and [str.strip()] treat as whitespace
    (CPython's [_PyUnicode_IsWhitespace]): U+0009..U+000D, U+001C..U+0020,
    U+0085, U+00A0, U+1680, U+2000..U+200A, U+2028, U+2029, U+202F, U+205F
    and U+3000. *)
Definition isspace (c : codepoint) : bool :=
  (((9 <=? c) && (c <=? 13)) || ((28 <=? c) && (c <=? 32))
   || (c =? 133) || (c =? 160) || (c =? 5760)
   || ((8192 <=? c) && (c <=? 8202))
   || (c =? 8232) || (c =? 8233) || (c =? 8239) || (c =? 8287)
   || (c =? 12288))%N.

(** [text.split()]: scan left to right, [cur] being the word read so far;
    a whitespace character closes the current word when there is one, runs
    of whitespace produce no empty word. *)
Fixpoint split_from (cur : pystr) (s : pystr) : list pystr :=
  match s with
  | [] => match cur with [] => [] | _ :: _ => [cur] end
  | c :: s' =>
      if isspace c
      then match cur with
           | [] => split_from [] s'
           | _ :: _ => cur :: split_from [] s'
           end
      else split_from (cur ++ [c]) s'
  end.

Definition split (s : pystr) : list pystr := split_from [] s.

(** [sep.join(xs)] *)
Fixpoint join (sep : pystr) (xs : list pystr) : pystr :=
  match xs with
  | [] => []
  | x :: rest =>
      match rest with
      | [] => x
      | _ :: _ => x ++ sep ++ join sep rest
      end
  end.

(** [s.strip()] *)
Fixpoint lstrip (s : pystr) : pystr :=
  match s with
  | [] => []
  | c :: s' => if isspace c then lstrip s' else s
  end.

Definition rstrip (s : pystr) : pystr := rev (lstrip (rev s)).

Definition strip (s : pystr) : pystr := rstrip (lstrip s).

(** [l[lo:hi]] for [0 <= lo <= hi]; an upper bound past the end is clamped. *)
Definition slice {A} (l : list A) (lo hi : nat) : list A :=
  firstn (hi - lo) (skipn lo l).

(** [range(start, stop, step)] for a positive [step]: [i] runs from [start]
    while [i < stop].  The loop is driven by a fuel of [stop - start], which
    a step of at least one never uses up ([range_loop_fuel] below). *)
Fixpoint range_loop (fuel : nat) (i stop step : nat) : list nat :=
  match fuel with
  | 0 => []
  | S fuel' =>
      if i <? stop then i :: range_loop fuel' (i + step) stop step else []
  end.

(** [range] raises [ValueError] on a zero step: [None]. *)
Definition range (start stop step : nat) : option (list nat) :=
  if step =? 0 then None
  else Some (range_loop (stop - start) start stop step).

(** A word: what [split] produces, a non-empty run of non-whitespace. *)
Definition nonspace (w : pystr) : bool :=
  forallb (fun c => negb (isspace c)) w.

Definition is_word (w : pystr) : Prop :=
  w <> [] /\ nonspace w = true.

(** Truth value of a string: non-empty. *)
Definition truthy (s : pystr) : bool :=
  match s with [] => false | _ :: _ => true end.

(** ASCII [lower()] and the [in] operator on the model identifiers, which
    are ASCII literals of the source. *)
Definition lower_ascii (c : ascii) : ascii :=
  let n := nat_of_ascii c in
  if (65 <=? n) && (n <=? 90) then ascii_of_nat (n + 32) else c.

Fixpoint lower (s : string) : string :=
  match s with
  | EmptyString => EmptyString
  | String c s' => String (lower_ascii c) (lower s')
  end.

Fixpoint contains (sub s : string) : bool :=
  String.prefix sub s ||
  match s with
  | EmptyString => false
  | String _ s' => contains sub s'
  end.

End PyStr.

(* ================================================================== *)
(** ** The floating-point expression [int(length * 0.8)] *)
(* ================================================================== *)

Module PyFloat.

Local Open Scope Z_scope.

Definition prec : Z := 53.
Definition emax : Z := 1024.

(** The literal [0.8]: the binary64 value nearest to 4/5,
    [0x1.999999999999ap-1]. *)
Definition lit_0_8 : spec_float := S754_finite false 7205759403792794 (-53).

(** Conversion of a Python [int] to [float], rounding to nearest even;
    [None] is the [OverflowError] of an integer too large for a float. *)
Definition float_of_int (z : Z) : option spec_float :=
  match binary_normalize prec emax z 0 false with
  | S754_infinity _ => None
  | f => Some f
  end.

Definition mul (x y : spec_float) : spec_float := SFmul prec emax x y.

(** [int(f)]: truncation toward zero; [None] is the error raised on an
    infinity or a NaN. *)
Definition int_of_float (f : spec_float) : option Z :=
  match f with
  | S754_zero _ => Some 0
  | S754_finite s m e =>
      let a := if 0 <=? e then Z.pos m * 2 ^ e else Z.pos m / 2 ^ (- e) in
      Some (if s then - a else a)
  | S754_infinity _ | S754_nan => None
  end.

(** [int(length * 0.8)] *)
Definition int_mul_0_8 (length : Z) : option Z :=
  match float_of_int length with
  | None => None
  | Some f => int_of_float (mul f lit_0_8)
  end.

End PyFloat.

(* ================================================================== *)
(** ** Parsed HTML *)
(* ================================================================== *)

Module Html.

Import PyStr.

(** The tree BeautifulSoup builds: text nodes and tags with children. *)
Inductive node : Type :=
| NavigableString (s : pystr)
| Tag (name : string) (children : list node).

(** [node.get_text()]: the text nodes below, concatenated in order. *)
Fixpoint get_text (n : node) : pystr :=
  match n with
  | NavigableString s => s
  | Tag _ cs => concat (map get_text cs)
  end.

(** The tags named [name] at or below [n], in document order. *)
Fixpoint tags_named (name : string) (n : node) : list node :=
  match n with
  | NavigableString _ => []
  | Tag t cs =>
      (if String.eqb t name then [n] else [])
        ++ flat_map (tags_named name) cs
  end.

(** [soup.find_all(name)], the soup being the list of top-level nodes. *)
Definition find_all (name : string) (soup : list node) : list node :=
  flat_map (tags_named name) soup.

End Html.

(* ================================================================== *)
(** ** The program *)
(* ================================================================== *)

Module NAS.

Import PyStr Html.

(** *** Exceptions, results and the trace of external calls *)

Inductive exn : Type :=
| ValueError (msg : string)
| OverflowError
| ExternalError (origin : string)
| StopException.

Inductive result (A : Type) : Type :=
| Ok (a : A)
| Raise (e : exn).

Arguments Ok {A} a.
Arguments Raise {A} e.

(** What [pipeline("summarization", model=..., use_fast=False)] builds; the
    model's [name_or_path] is the identifier it was loaded from. *)
Record pipeline : Type := mk_pipeline {
  task : string;
  name_or_path : string;
  use_fast : bool
}.

(** The arguments of one call [summarizer(chunk, max_length=..,
    min_length=.., do_sample=..)]. *)
Record call : Type := mk_call {
  input : pystr;
  max_length : Z;
  min_length : Z;
  do_sample : bool
}.

Definition UploadedFile := list N.

(** Every call that leaves the program is recorded, in order. *)
Inductive event : Type :=
| EvRequest (url : pystr)
| EvPdfReader (file : UploadedFile)
| EvPipeline (p : pipeline)
| EvSummarize (p : pipeline) (c : call)
| EvSpeech (text : pystr)
| EvStError (msg : string).

(** A computation returns or raises, and leaves a trace. *)
Definition M (A : Type) : Type := (result A * list event)%type.

Definition ret {A} (a : A) : M A := (Ok a, []).

Definition raise {A} (e : exn) : M A := (Raise e, []).

Definition bind {A B} (m : M A) (k : A -> M B) : M B :=
  match m with
  | (Ok a, t1) => let (r, t2) := k a in (r, t1 ++ t2)
  | (Raise e, t1) => (Raise e, t1)
  end.

Definition external {A} (ev : event) (r : result A) : M A := (r, [ev]).

Definition emit (ev : event) : M unit := (Ok tt, [ev]).

Notation "x <- m ;; k" := (bind m (fun x => k))
  (at level 61, m at next level, right associativity).

(** *** External capabilities *)

(** The libraries the program calls into.  [summarize p c] is
    [p(chunk, ...)[0]["summary_text"]]; [pdf_pages f] is the text
    [page.extract_text()] of each page of [PdfReader(f)]; [gtts_save s] is
    the name of the temporary file [gTTS(s)] was saved to. *)
Class Env : Type := mk_env {
  requests_get : pystr -> result pystr;
  html_parser : pystr -> list node;
  pdf_pages : UploadedFile -> result (list pystr);
  summarize : pipeline -> call -> result pystr;
  gtts_save : pystr -> result string
}.

Section Program.

Context {env : Env}.

(** *** Helpers *)

Definition extract_text_from_url (url : pystr) : M pystr :=
  content <- external (EvRequest url) (requests_get url) ;;
  let soup := html_parser content in
  ret (join space (map get_text (find_all "p" soup))).

Definition extract_text_from_pdf (file : UploadedFile) : M pystr :=
  pages <- external (EvPdfReader file) (pdf_pages file) ;;
  ret (join space (filter truthy pages)).

Definition load (model : string) : M pipeline :=
  let p := mk_pipeline "summarization" model false in
  _ <- emit (EvPipeline p) ;;
  ret p.

Definition get_summarizer (length : Z) : M pipeline :=
  if (length =? 60)%Z then load "google/flan-t5-base"
  else if (length =? 150)%Z then load "google/pegasus-cnn_dailymail"
  else if (length =? 500)%Z then load "pszemraj/led-large-book-summary"
  else raise (ValueError "Invalid summary length.").

(** Lines 33-36: the input chunk size depending on the model. *)
Definition max_input_words (summarizer : pipeline) : nat :=
  if contains "long-t5" (lower (name_or_path summarizer))
  then 8000
  else 700.

(** Lines 38-42: the words of the text, cut every [limit] words. *)
Definition chunk_text (text : pystr) (limit : nat) : M (list pystr) :=
  let words := split text in
  match range 0 (length words) limit with
  | None => raise (ValueError "range() arg 3 must not be zero")
  | Some starts =>
      ret (map (fun i => join space (slice words i (i + limit))) starts)
  end.

(** [max(20, int(length * 0.8))] *)
Definition min_length_for (length : Z) : M Z :=
  match PyFloat.int_mul_0_8 length with
  | None => raise OverflowError
  | Some v => ret (Z.max 20 v)
  end.

(** Lines 44-52: one call per chunk, in order; each summary is stripped. *)
Fixpoint summarize_chunks (summarizer : pipeline) (length : Z)
    (chunks : list pystr) : M (list pystr) :=
  match chunks with
  | [] => ret []
  | chunk :: rest =>
      lo <- min_length_for length ;;
      let c := mk_call chunk length lo false in
      summary <- external (EvSummarize summarizer c) (summarize summarizer c) ;;
      summaries <- summarize_chunks summarizer length rest ;;
      ret (strip summary :: summaries)
  end.

Definition safe_generate_summary (text : pystr) (length : Z) : M pystr :=
  summarizer <- get_summarizer length ;;
  chunks <- chunk_text text (max_input_words summarizer) ;;
  summaries <- summarize_chunks summarizer length chunks ;;
  ret (join space summaries).

Definition generate_audio (summary_text : pystr) : M string :=
  external (EvSpeech summary_text) (gtts_save summary_text).

(** *** The generate button *)

(** The input-type selector with the widget it shows. *)
Inductive RawInput : Type :=
| InText (user_text : pystr)
| InURL (url : pystr)
| InPDF (pdf_file : option UploadedFile)
| InDigest (digest_input : pystr).

Definition digest_preamble : pystr :=
  of_string "Summarize the newspaper article reference list by grouping them by source and ordering by date:"
    ++ [10%N].

(** [st.error(...)] followed by [st.stop()]; the message is recorded
    without its leading warning sign. *)
Definition invalid_input {A} : M A :=
  _ <- emit (EvStError "Please provide a valid input.") ;;
  raise StopException.

(** Lines 141-154: the text to summarize. *)
Definition acquire_text (inp : RawInput) : M pystr :=
  match inp with
  | InText user_text =>
      if truthy user_text then ret user_text else invalid_input
  | InURL url =>
      if truthy url then extract_text_from_url url else invalid_input
  | InPDF (Some pdf_file) => extract_text_from_pdf pdf_file
  | InPDF None => invalid_input
  | InDigest digest_input =>
      if truthy digest_input then ret (digest_preamble ++ digest_input)
      else invalid_input
  end.

(** Lines 141-165: the handler up to the audio file. *)
Definition on_generate (inp : RawInput) (summary_length : Z)
    : M (pystr * string) :=
  text <- acquire_text inp ;;
  summary <- safe_generate_summary text summary_length ;;
  audio_path <- generate_audio summary ;;
  ret (summary, audio_path).

End Program.

End NAS.

(* ================================================================== *)
(** ** Observations on traces, and the inputs used in the examples *)
(* ================================================================== *)

Module Obs.

Import PyStr Html NAS.

(** The values the length selector offers (line 124). *)
Definition valid_target (length : Z) : Prop :=
  (length = 60 \/ length = 150 \/ length = 500)%Z.

(** The calls to the summarization capability recorded in a trace. *)
Fixpoint calls_of (tr : list event) : list call :=
  match tr with
  | [] => []
  | EvSummarize _ c :: tr' => c :: calls_of tr'
  | _ :: tr' => calls_of tr'
  end.

(** The call line 46 makes for a chunk, given the target length and the
    minimum length computed from it. *)
Definition call_for (length lo : Z) (chunk : pystr) : call :=
  mk_call chunk length lo false.

(** The indices at which the loop of line 40 cuts the words of a text. *)
Definition chunk_starts (text : pystr) (limit : nat) : list nat :=
  range_loop (length (split text)) 0 (length (split text)) limit.

(** The number of words of a chunk. *)
Definition word_count (s : pystr) : nat := length (split s).

(** Some character of [s] is not whitespace. *)
Definition has_nonspace (s : pystr) : bool :=
  existsb (fun c => negb (isspace c)) s.

(** The three pipelines [get_summarizer] can build. *)
Definition flan_t5 : pipeline :=
  mk_pipeline "summarization" "google/flan-t5-base" false.
Definition pegasus : pipeline :=
  mk_pipeline "summarization" "google/pegasus-cnn_dailymail" false.
Definition led_large : pipeline :=
  mk_pipeline "summarization" "pszemraj/led-large-book-summary" false.

(** A page without any paragraph element. *)
Definition page_without_p : list node :=
  [Tag "html" [Tag "head" [Tag "title" [NavigableString (of_string "Home")]];
               Tag "body" [Tag "div" [NavigableString (of_string "menu")]]]].

(** An environment for the examples: every page is [page_without_p], every
    call to a pipeline answers the same padded sentence, and speech
    synthesis refuses an empty text. *)
Definition example_env : Env := {|
  requests_get := fun _ => Ok (of_string "<html>...</html>");
  html_parser := fun _ => page_without_p;
  pdf_pages := fun _ => Ok [];
  summarize := fun _ _ => Ok (of_string "  The gist. ");
  gtts_save := fun s =>
    if truthy s then Ok "/tmp/tmpsummary.mp3"%string
    else Raise (ExternalError "gTTS: No text to speak")
|}.

Definition example_url : pystr := of_string "https://example.com/article".

(** Texts for the examples: irregular whitespace, whitespace only, and the
    short text of the end-to-end scenario. *)
Definition ragged_text : pystr :=
  of_string "  the quick  brown" ++ [10%N; 9%N] ++ of_string "fox jumps " .
Definition blank_text : pystr := [32%N; 10%N; 9%N; 160%N].
Definition hello_world : pystr := of_string "Hello world.".

(** A text of 2000 words. *)
Definition two_thousand_words : pystr :=
  concat (repeat (of_string "word ") 2000).

(** The texts handed to speech synthesis recorded in a trace. *)
Fixpoint speech_of (tr : list event) : list pystr :=
  match tr with
  | [] => []
  | EvSpeech text :: tr' => text :: speech_of tr'
  | _ :: tr' => speech_of tr'
  end.

(** The pipelines built in a trace. *)
Fixpoint pipelines_of (tr : list event) : list pipeline :=
  match tr with
  | [] => []
  | EvPipeline p :: tr' => p :: pipelines_of tr'
  | _ :: tr' => pipelines_of tr'
  end.

(** An [st.error] was shown. *)
Definition is_st_error (ev : event) : bool :=
  match ev with EvStError _ => true | _ => false end.

(** The payload the tests of lines 142-150 find empty. *)
Definition payload_missing (inp : RawInput) : bool :=
  match inp with
  | InText user_text => negb (truthy user_text)
  | InURL url => negb (truthy url)
  | InPDF None => true
  | InPDF (Some _) => false
  | InDigest digest_input => negb (truthy digest_input)
  end.

(** A string that neither starts nor ends with whitespace. *)
Definition trimmed (s : pystr) : Prop := strip s = s.

(** A string that starts and ends with a character that is not
    whitespace. *)
Definition edges (s : pystr) : Prop :=
  (exists c t, s = c :: t /\ isspace c = false)
  /\ (exists u d, s = u ++ [d] /\ isspace d = false).

(** The words of the instruction the digest mode puts before its input. *)
Definition preamble_words : list pystr :=
  map of_string
    ["Summarize"; "the"; "newspaper"; "article"; "reference"; "list"; "by";
     "grouping"; "them"; "by"; "source"; "and"; "ordering"; "by";
     "date:"]%string.

(** [int(n * 0.8)] is the floor of 80% of [n]. *)
Definition floor_80_exact (n : Z) : bool :=
  match PyFloat.int_mul_0_8 n with
  | Some v => (v =? 80 * n / 100)%Z
  | None => false
  end.

(** More inputs for the examples: a text of 701 words, a PDF of three pages
    the second of which has no text, a page with two paragraphs, and
    environments whose HTTP client fails, whose pipeline fails on a chunk
    of fewer than 700 words, and whose PDF reader and HTML parser return
    the documents above. *)
Definition seven_hundred_one_words : pystr :=
  concat (repeat (of_string "w ") 701).

Definition three_pages : list pystr :=
  [of_string "first page "; []; of_string "third  page"].

Definition page_with_two_p : list node :=
  [Tag "html"
     [Tag "body"
        [Tag "h1" [NavigableString (of_string "Title")];
         Tag "p" [NavigableString (of_string "One ");
                  Tag "b" [NavigableString (of_string "bold")]];
         Tag "div" [Tag "p" [NavigableString (of_string " two")]]]]].

Definition offline_env : Env := {|
  requests_get := fun _ => Raise (ExternalError "requests: ConnectionError");
  html_parser := fun _ => [];
  pdf_pages := fun _ => Raise (ExternalError "PyPDF2: PdfReadError");
  summarize := fun _ _ => Ok (of_string "  The gist. ");
  gtts_save := fun _ => Ok "/tmp/tmpsummary.mp3"%string
|}.

Definition flaky_env : Env := {|
  requests_get := fun _ => Ok (of_string "<html>...</html>");
  html_parser := fun _ => page_with_two_p;
  pdf_pages := fun _ => Ok three_pages;
  summarize := fun _ c =>
    if length (split (input c)) <? 700
    then Raise (ExternalError "transformers: IndexError")
    else Ok (of_string "  The gist. ");
  gtts_save := fun _ => Ok "/tmp/tmpsummary.mp3"%string
|}.

Definition documents_env : Env := {|
  requests_get := fun _ => Ok (of_string "<html>...</html>");
  html_parser := fun _ => page_with_two_p;
  pdf_pages := fun _ => Ok three_pages;
  summarize := fun _ _ => Ok (of_string "  The gist. ");
  gtts_save := fun _ => Ok "/tmp/tmpsummary.mp3"%string
|}.

End Obs.

(* ================================================================== *)
(** ** Facts about strings, slices and ranges *)
(* ================================================================== *)

Module PyStrFacts.

Import PyStr.

Lemma nonspace_app (u v : pystr) :
  nonspace (u ++ v) = nonspace u && nonspace v.
Proof. apply forallb_app. Qed.

Lemma is_word_nonspace (w : pystr) : is_word w -> nonspace w = true.
Proof. now intros [_ H]. Qed.

(** *** [split] *)

(** Reading a run of non-whitespace only extends the current word. *)
Lemma split_from_run (w cur rest : pystr) :
  nonspace w = true ->
  split_from cur (w ++ rest) = split_from (cur ++ w) rest.
Proof.
  revert cur. induction w as [|c w IH]; intros cur Hw; simpl.
  - now rewrite app_nil_r.
  - simpl in Hw. apply andb_true_iff in Hw as [Hc Hw].
    apply negb_true_iff in Hc. rewrite Hc.
    rewrite IH by assumption. now rewrite <- app_assoc.
Qed.

(** Everything [split] returns is a word. *)
Lemma split_from_words (s cur : pystr) :
  nonspace cur = true -> Forall is_word (split_from cur s).
Proof.
  revert cur. induction s as [|c s IH]; intros cur Hcur; simpl.
  - destruct cur as [|a cur]; constructor; [|constructor].
    split; [discriminate | exact Hcur].
  - destruct (isspace c) eqn:Hc.
    + destruct cur as [|a cur].
      * now apply IH.
      * constructor; [split; [discriminate | exact Hcur] | now apply IH].
    + apply IH. rewrite nonspace_app, Hcur. simpl.
      now rewrite Hc.
Qed.

Lemma split_words (s : pystr) : Forall is_word (split s).
Proof. now apply split_from_words. Qed.

(** [split] undoes [" ".join] on words. *)
Lemma split_join (ws : list pystr) :
  Forall is_word ws -> split (join space ws) = ws.
Proof.
  unfold split. induction 1 as [|w ws [Hne Hw] Hws IH]; [reflexivity|].
  cbn [join]. destruct ws as [|w' ws].
  - replace (split_from [] w) with (split_from [] (w ++ []))
      by now rewrite app_nil_r.
    rewrite split_from_run by exact Hw.
    simpl. destruct w; [contradiction | reflexivity].
  - rewrite split_from_run by exact Hw.
    remember (join space (w' :: ws)) as tail eqn:Htail.
    destruct w; [contradiction|]. simpl. subst tail. now rewrite IH.
Qed.

(** A text of whitespace only has no word. *)
Lemma split_blank (s : pystr) : forallb isspace s = true -> split s = [].
Proof.
  unfold split. induction s as [|c s IH]; simpl; [reflexivity|].
  intros H. apply andb_true_iff in H as [Hc Hs]. now rewrite Hc, IH.
Qed.

(** A text with a non-whitespace character has a word. *)
Lemma split_from_nonempty (s cur : pystr) :
  cur <> [] \/ existsb (fun c => negb (isspace c)) s = true ->
  split_from cur s <> [].
Proof.
  revert cur. induction s as [|c s IH]; intros cur H; simpl.
  - destruct H as [H|H]; [|discriminate].
    destruct cur; [contradiction | discriminate].
  - destruct (isspace c) eqn:Hc.
    + destruct cur; [|discriminate].
      apply IH. right. destruct H as [H|H]; [contradiction|].
      simpl in H. now rewrite Hc in H.
    + apply IH. left. now destruct cur.
Qed.

(** *** [join] *)

Lemma join_nil_inv (xs : list pystr) :
  join space xs = [] -> xs = [] \/ xs = [[]].
Proof.
  destruct xs as [|x [|y xs]]; simpl; auto.
  - intros ->. now right.
  - intros H. apply app_eq_nil in H as [_ H]. discriminate.
Qed.

(** *** [strip] *)

Lemma lstrip_nonempty (s : pystr) :
  existsb (fun c => negb (isspace c)) s = true -> lstrip s <> [].
Proof.
  induction s as [|c s IH]; simpl; [discriminate|].
  destruct (isspace c); simpl; [exact IH | discriminate].
Qed.

Lemma existsb_lstrip (s : pystr) :
  existsb (fun c => negb (isspace c)) (lstrip s)
  = existsb (fun c => negb (isspace c)) s.
Proof.
  induction s as [|c s IH]; simpl; [reflexivity|].
  destruct (isspace c) eqn:Hc; simpl; [exact IH | now rewrite Hc].
Qed.

Lemma existsb_reverse {A} (f : A -> bool) (l : list A) :
  existsb f (rev l) = existsb f l.
Proof.
  induction l as [|a l IH]; simpl; [reflexivity|].
  rewrite existsb_app, IH. simpl. rewrite orb_false_r. apply orb_comm.
Qed.

Lemma strip_nonempty (s : pystr) :
  existsb (fun c => negb (isspace c)) s = true -> strip s <> [].
Proof.
  intros H. unfold strip, rstrip. intros E.
  apply (f_equal (@rev _)) in E. rewrite rev_involutive in E. simpl in E.
  revert E. apply lstrip_nonempty.
  rewrite existsb_reverse, existsb_lstrip. exact H.
Qed.

(** *** Slices *)

Lemma slice_Forall {A} (P : A -> Prop) (l : list A) (lo hi : nat) :
  Forall P l -> Forall P (slice l lo hi).
Proof.
  intros H. unfold slice.
  rewrite <- (firstn_skipn lo l) in H. apply Forall_app in H as [_ H].
  rewrite <- (firstn_skipn (hi - lo) (skipn lo l)) in H.
  now apply Forall_app in H as [H _].
Qed.

Lemma slice_length {A} (l : list A) (i m : nat) :
  length (slice l i (i + m)) = Nat.min m (length l - i).
Proof.
  unfold slice. rewrite length_firstn, length_skipn.
  replace (i + m - i) with m by lia. reflexivity.
Qed.

(** *** [range] *)

(** The fuel never decides: any two fuels that cover [stop - i] give the
    same range. *)
Lemma range_loop_fuel (fuel fuel' i stop step : nat) :
  0 < step -> stop - i <= fuel -> stop - i <= fuel' ->
  range_loop fuel i stop step = range_loop fuel' i stop step.
Proof.
  intros Hstep. revert fuel' i.
  induction fuel as [|fuel IH]; intros [|fuel'] i H1 H2; simpl;
    try reflexivity;
    destruct (i <? stop) eqn:Hi; try reflexivity;
    apply Nat.ltb_lt in Hi; try lia.
  f_equal. apply IH; lia.
Qed.

(** The members of a range: the start plus a multiple of the step, below
    the stop. *)
Lemma range_loop_In (fuel i stop step x : nat) :
  0 < step -> stop - i <= fuel ->
  In x (range_loop fuel i stop step) <->
  x < stop /\ exists k, x = i + k * step.
Proof.
  intros Hstep. revert i.
  induction fuel as [|fuel IH]; intros i Hfuel; simpl.
  - split; [contradiction|]. intros [Hx [k ->]]. lia.
  - destruct (i <? stop) eqn:Hi.
    + apply Nat.ltb_lt in Hi. simpl. rewrite IH by lia. split.
      * intros [<- | [Hx [k ->]]].
        -- split; [exact Hi | now exists 0].
        -- split; [exact Hx | exists (S k); simpl; lia].
      * intros [Hx [[|k] ->]].
        -- left. lia.
        -- right. split; [exact Hx | exists k; simpl; lia].
    + apply Nat.ltb_ge in Hi. split; [contradiction|].
      intros [Hx [k ->]]. lia.
Qed.

(** The number of members is the ceiling of the span over the step. *)
Lemma range_loop_length (fuel i stop step : nat) :
  0 < step -> stop - i <= fuel ->
  length (range_loop fuel i stop step) = (stop - i + step - 1) / step.
Proof.
  intros Hstep. revert i.
  induction fuel as [|fuel IH]; intros i Hfuel; simpl.
  - replace (stop - i + step - 1) with (step - 1) by lia.
    symmetry. apply Nat.div_small. lia.
  - destruct (i <? stop) eqn:Hi.
    + apply Nat.ltb_lt in Hi. simpl. rewrite IH by lia.
      destruct (Nat.le_gt_cases (i + step) stop) as [Hle|Hgt].
      * replace (stop - i + step - 1)
          with ((stop - (i + step) + step - 1) + 1 * step) by lia.
        rewrite Nat.div_add by lia. lia.
      * replace (stop - (i + step) + step - 1) with (step - 1) by lia.
        rewrite Nat.div_small by lia.
        apply (Nat.div_unique _ _ 1 (stop - i - 1)); lia.
    + apply Nat.ltb_ge in Hi. simpl.
      replace (stop - i + step - 1) with (step - 1) by lia.
      symmetry. apply Nat.div_small. lia.
Qed.

(** Cutting a list at the members of a range loses nothing. *)
Lemma concat_slices {A} (l : list A) (m fuel i : nat) :
  0 < m -> length l - i <= fuel ->
  concat (map (fun j => slice l j (j + m)) (range_loop fuel i (length l) m))
  = skipn i l.
Proof.
  intros Hm. revert i.
  induction fuel as [|fuel IH]; intros i Hfuel; simpl.
  - symmetry. apply skipn_all2. lia.
  - destruct (i <? length l) eqn:Hi.
    + simpl. rewrite IH by (apply Nat.ltb_lt in Hi; lia).
      unfold slice. replace (i + m - i) with m by lia.
      rewrite Nat.add_comm, <- skipn_skipn.
      apply firstn_skipn.
    + apply Nat.ltb_ge in Hi. symmetry. now apply skipn_all2.
Qed.

End PyStrFacts.

(* ================================================================== *)
(** ** Facts about the program *)
(* ================================================================== *)

Module NASFacts.

Import PyStr Html NAS Obs PyStrFacts.

(** *** The chunking step *)

Section Chunking.

Variables (text : pystr) (limit : nat).
Hypothesis limit_pos : 0 < limit.

(** With a positive limit the chunking step returns, and leaves no
    trace. *)
Lemma chunk_text_eq :
  chunk_text text limit
  = (Ok (map (fun i => join space (slice (split text) i (i + limit)))
            (chunk_starts text limit)), []).
Proof.
  unfold chunk_text, range, chunk_starts.
  destruct limit as [|l]; [lia|]. simpl (S l =? 0).
  now rewrite Nat.sub_0_r.
Qed.

(** The words of a chunk are the slice it was joined from. *)
Lemma chunk_words (i : nat) :
  split (join space (slice (split text) i (i + limit))) = slice (split text) i (i + limit).
Proof. apply split_join, slice_Forall, split_words. Qed.

Lemma chunks_words :
  map split (map (fun i => join space (slice (split text) i (i + limit)))
                 (chunk_starts text limit))
  = map (fun i => slice (split text) i (i + limit)) (chunk_starts text limit).
Proof. rewrite map_map. apply map_ext. intros i. apply chunk_words. Qed.

Lemma starts_in_range (i : nat) :
  In i (chunk_starts text limit) -> i < length (split text).
Proof.
  unfold chunk_starts. intros H.
  apply range_loop_In in H; [tauto | exact limit_pos | lia].
Qed.

Lemma slices_concat :
  concat (map (fun i => slice (split text) i (i + limit))
              (chunk_starts text limit))
  = split text.
Proof.
  unfold chunk_starts. rewrite concat_slices by (exact limit_pos || lia).
  apply skipn_0.
Qed.

Lemma slices_nonempty :
  Forall (fun l : list pystr => l <> [])
         (map (fun i => slice (split text) i (i + limit))
              (chunk_starts text limit)).
Proof.
  apply Forall_forall. intros l Hl.
  apply in_map_iff in Hl as [i [<- Hi]]. apply starts_in_range in Hi.
  intros E. apply (f_equal (@length _)) in E.
  rewrite slice_length in E. simpl in E. lia.
Qed.

End Chunking.

Lemma join_app (sep : pystr) (l l' : list pystr) :
  l <> [] -> l' <> [] ->
  join sep (l ++ l') = join sep l ++ sep ++ join sep l'.
Proof.
  intros Hl Hl'. induction l as [|x l IH]; [contradiction|].
  destruct l as [|y l].
  - simpl. destruct l'; [contradiction | reflexivity].
  - change (join sep ((x :: y :: l) ++ l'))
      with (x ++ sep ++ join sep ((y :: l) ++ l')).
    rewrite IH by discriminate.
    change (join sep (x :: y :: l)) with (x ++ sep ++ join sep (y :: l)).
    now rewrite <- !app_assoc.
Qed.

(** Joining joined groups is joining their concatenation, as long as no
    group is empty. *)
Lemma join_join (sep : pystr) (ls : list (list pystr)) :
  Forall (fun l => l <> []) ls ->
  join sep (map (join sep) ls) = join sep (concat ls).
Proof.
  induction 1 as [|l ls Hl Hls IH]; [reflexivity|].
  destruct ls as [|l' ls].
  - simpl. now rewrite app_nil_r.
  - change (join sep (map (join sep) (l :: l' :: ls)))
      with (join sep l ++ sep ++ join sep (map (join sep) (l' :: ls))).
    rewrite IH. change (concat (l :: l' :: ls)) with (l ++ concat (l' :: ls)).
    rewrite join_app; [reflexivity | exact Hl |].
    inversion Hls as [|? ? Hl' _]; subst. simpl.
    destruct l'; [contradiction | discriminate].
Qed.

(** C1. The chunking step of [safe_generate_summary] is lossless over
    words: for any text and any positive word limit it returns chunks
    whose words, joined in chunk order with single spaces, are the
    whitespace-normalized text (the text split on whitespace and joined
    with single spaces); joining the chunks themselves gives the same. *)
Theorem chunking_lossless (text : pystr) (limit : nat) :
  0 < limit ->
  exists chunks,
    chunk_text text limit = (Ok chunks, [])
    /\ join space (concat (map split chunks)) = join space (split text)
    /\ join space chunks = join space (split text).
Proof.
  intros Hpos. eexists. split; [now apply chunk_text_eq|]. split.
  - now rewrite chunks_words, slices_concat.
  - rewrite <- (map_map (fun i => slice (split text) i (i + limit))
                        (join space)).
    rewrite join_join by now apply slices_nonempty.
    now rewrite slices_concat.
Qed.

(** C2. For every text and every positive per-chunk word limit, every
    chunk the chunking step produces has at most that many
    whitespace-delimited words; the limit [safe_generate_summary] passes is
    one of the two tiers, 700 or 8000. *)
Theorem chunk_within_limit (text : pystr) (limit : nat) :
  0 < limit ->
  (exists chunks,
     chunk_text text limit = (Ok chunks, [])
     /\ Forall (fun chunk => word_count chunk <= limit) chunks)
  /\ (forall summarizer,
        max_input_words summarizer = 700 \/ max_input_words summarizer = 8000).
Proof.
  intros Hpos. split.
  - eexists. split; [now apply chunk_text_eq|].
    apply Forall_forall. intros chunk Hin.
    apply in_map_iff in Hin as [i [<- _]].
    unfold word_count. rewrite chunk_words, slice_length. apply Nat.le_min_l.
  - intros summarizer. unfold max_input_words.
    destruct (contains _ _); auto.
Qed.

(** The word counts of the chunks, in order. *)
Lemma chunk_sizes (text : pystr) (limit : nat) :
  map word_count
      (map (fun i => join space (slice (split text) i (i + limit)))
           (chunk_starts text limit))
  = map (fun i => Nat.min limit (length (split text) - i))
        (chunk_starts text limit).
Proof.
  rewrite map_map. apply map_ext. intros i.
  unfold word_count. now rewrite chunk_words, slice_length.
Qed.

(** C3. For every text of [n] whitespace-delimited words and every
    positive limit the chunking step produces exactly [ceil(n / limit)]
    chunks, none for a text without words; a text of 2000 words cut at 700
    gives three chunks of 700, 700 and 600 words, in that order. *)
Theorem chunk_count (text : pystr) (limit : nat) :
  0 < limit ->
  exists chunks,
    chunk_text text limit = (Ok chunks, [])
    /\ length chunks = (word_count text + limit - 1) / limit
    /\ (word_count text <= limit * length chunks
        /\ limit * length chunks < word_count text + limit)
    /\ (word_count text = 0 -> chunks = [])
    /\ (word_count text = 2000 -> limit = 700 ->
        map word_count chunks = [700; 700; 600]).
Proof.
  intros Hpos. eexists. split; [now apply chunk_text_eq|].
  assert (Hlen : length
            (map (fun i => join space (slice (split text) i (i + limit)))
               (chunk_starts text limit))
          = (word_count text + limit - 1) / limit).
  { unfold chunk_starts.
    rewrite length_map, range_loop_length by (exact Hpos || lia).
    unfold word_count. now rewrite Nat.sub_0_r. }
  split; [exact Hlen|]. split; [|split].
  - rewrite Hlen.
    pose proof (Nat.div_mod_eq (word_count text + limit - 1) limit) as E.
    pose proof (Nat.mod_upper_bound (word_count text + limit - 1) limit) as B.
    lia.
  - unfold word_count, chunk_starts. intros ->. reflexivity.
  - unfold word_count at 1. intros Hn ->.
    rewrite chunk_sizes. unfold chunk_starts. rewrite Hn. reflexivity.
Qed.

(** *** Selecting the pipeline *)

Lemma get_summarizer_valid (length : Z) :
  valid_target length ->
  exists p, get_summarizer length = (Ok p, [EvPipeline p])
            /\ In p [flan_t5; pegasus; led_large]
            /\ max_input_words p = 700.
Proof.
  intros [-> | [-> | ->]]; eexists; (split; [reflexivity|]);
    (split; [simpl; tauto | reflexivity]).
Qed.

Lemma get_summarizer_invalid (length : Z) :
  (length <> 60)%Z -> (length <> 150)%Z -> (length <> 500)%Z ->
  get_summarizer length = (Raise (ValueError "Invalid summary length."), []).
Proof.
  intros H1 H2 H3. unfold get_summarizer.
  apply Z.eqb_neq in H1, H2, H3. now rewrite H1, H2, H3.
Qed.

(** On the three valid targets the floating-point product is exact:
    [int(length * 0.8)] is the floor of 80% of [length]. *)
Lemma min_length_valid (length : Z) :
  valid_target length ->
  min_length_for length = (Ok (Z.max 20 (80 * length / 100)), []).
Proof. intros [-> | [-> | ->]]; reflexivity. Qed.

(** *** The summarization loop *)

Section Summarizing.

Context {env : Env}.

Variables (summarizer : pipeline) (length lo : Z).
Hypothesis min_length_ok : min_length_for length = (Ok lo, []).

(** One turn of the loop. *)
Lemma summarize_chunks_cons (chunk : pystr) (chunks : list pystr) :
  summarize_chunks summarizer length (chunk :: chunks)
  = let ev := EvSummarize summarizer (call_for length lo chunk) in
    match summarize summarizer (call_for length lo chunk) with
    | Raise e => (Raise e, [ev])
    | Ok raw =>
        match summarize_chunks summarizer length chunks with
        | (Ok summaries, tr) => (Ok (strip raw :: summaries), ev :: tr)
        | (Raise e, tr) => (Raise e, ev :: tr)
        end
    end.
Proof.
  cbn [summarize_chunks]. rewrite min_length_ok. unfold call_for.
  unfold bind, external, ret.
  destruct (summarize summarizer _) as [raw|e]; [|reflexivity].
  destruct (summarize_chunks summarizer length chunks) as [[ss|e] tr];
    simpl; now rewrite ?app_nil_r.
Qed.

(** When the capability answers every chunk, the loop returns the stripped
    answers and has called it once per chunk, in order. *)
Lemma summarize_chunks_ok (chunks raws : list pystr) :
  Forall2 (fun chunk raw =>
             summarize summarizer (call_for length lo chunk) = Ok raw)
          chunks raws ->
  summarize_chunks summarizer length chunks
  = (Ok (map strip raws),
     map (fun chunk => EvSummarize summarizer (call_for length lo chunk))
         chunks).
Proof.
  induction 1 as [|chunk raw chunks raws Hraw _ IH]; [reflexivity|].
  rewrite summarize_chunks_cons. cbv zeta. now rewrite Hraw, IH.
Qed.

(** A result of the loop is made of the capability's answers. *)
Lemma summarize_chunks_inv (chunks summaries : list pystr) :
  fst (summarize_chunks summarizer length chunks) = Ok summaries ->
  exists raws,
    Forall2 (fun chunk raw =>
               summarize summarizer (call_for length lo chunk) = Ok raw)
            chunks raws
    /\ summaries = map strip raws.
Proof.
  revert summaries. induction chunks as [|chunk chunks IH]; intros summaries.
  - simpl. intros [= <-]. exists []. split; [constructor | reflexivity].
  - rewrite summarize_chunks_cons. cbv zeta.
    destruct (summarize summarizer _) as [raw|e] eqn:Hraw; [|discriminate].
    destruct (summarize_chunks summarizer length chunks) as [[ss|e] tr];
      [|discriminate].
    simpl. intros [= <-]. destruct (IH ss eq_refl) as [raws [HF ->]].
    exists (raw :: raws). split; [now constructor | reflexivity].
Qed.

(** Whatever the capability answers, the calls made are those for a prefix
    of the chunks, in order; the whole of them when the loop returns. *)
Lemma summarize_chunks_trace (chunks : list pystr) :
  exists n,
    n <= Datatypes.length chunks
    /\ snd (summarize_chunks summarizer length chunks)
       = map (fun chunk => EvSummarize summarizer (call_for length lo chunk))
             (firstn n chunks)
    /\ (forall summaries,
          fst (summarize_chunks summarizer length chunks) = Ok summaries ->
          n = Datatypes.length chunks).
Proof.
  induction chunks as [|chunk chunks [n [Hn [Htr Hall]]]].
  - exists 0. simpl. auto.
  - rewrite summarize_chunks_cons. cbv zeta.
    destruct (summarize summarizer _) as [raw|e].
    + exists (S n).
      destruct (summarize_chunks summarizer length chunks) as [[ss|e] tr];
        simpl in *; (split; [lia|]); (split; [now rewrite Htr|]).
      * intros _ _. f_equal. now apply (Hall ss).
      * discriminate.
    + exists 1. simpl. split; [lia|]. split; [reflexivity | discriminate].
Qed.

End Summarizing.

Lemma calls_of_summarize (p : pipeline) (f : pystr -> call)
    (chunks : list pystr) :
  calls_of (map (fun chunk => EvSummarize p (f chunk)) chunks) = map f chunks.
Proof. induction chunks as [|c cs IH]; simpl; [reflexivity | now rewrite IH]. Qed.

(** The loop stops at the first chunk the capability fails on. *)
Lemma summarize_chunks_fail {env : Env} (p : pipeline) (length lo : Z)
    (pre : list pystr) (c : pystr) (post raws : list pystr) (e : exn) :
  min_length_for length = (Ok lo, []) ->
  Forall2 (fun chunk raw => summarize p (call_for length lo chunk) = Ok raw)
          pre raws ->
  summarize p (call_for length lo c) = Raise e ->
  summarize_chunks p length (pre ++ c :: post)
  = (Raise e,
     map (fun chunk => EvSummarize p (call_for length lo chunk))
         (pre ++ [c])).
Proof.
  intros Hlo HF Hc.
  induction HF as [|chunk raw pre raws Hraw _ IH]; simpl app;
    rewrite (summarize_chunks_cons p length Hlo); cbv zeta.
  - now rewrite Hc.
  - now rewrite Hraw, IH.
Qed.

Section Summary.

Context {env : Env}.

(** [safe_generate_summary] once the pipeline and the chunks are known. *)
Lemma safe_generate_summary_eq (text : pystr) (length : Z) (p : pipeline)
    (chunks : list pystr) :
  get_summarizer length = (Ok p, [EvPipeline p]) ->
  chunk_text text (max_input_words p) = (Ok chunks, []) ->
  safe_generate_summary text length
  = match summarize_chunks p length chunks with
    | (Ok summaries, tr) => (Ok (join space summaries), EvPipeline p :: tr)
    | (Raise e, tr) => (Raise e, EvPipeline p :: tr)
    end.
Proof.
  intros Hp Hc. unfold safe_generate_summary.
  rewrite Hp. unfold bind at 1. rewrite Hc. unfold bind at 1.
  unfold bind.
  destruct (summarize_chunks p length chunks) as [[ss|e] tr]; simpl;
    now rewrite ?app_nil_r.
Qed.

(** The pipeline and the chunks of a valid request. *)
Lemma valid_request (text : pystr) (length : Z) :
  valid_target length ->
  exists p chunks,
    get_summarizer length = (Ok p, [EvPipeline p])
    /\ max_input_words p = 700
    /\ chunk_text text (max_input_words p) = (Ok chunks, []).
Proof.
  intros Hv. destruct (get_summarizer_valid Hv) as [p [Hp [_ Hm]]].
  exists p. eexists. split; [exact Hp|]. split; [exact Hm|].
  rewrite Hm. apply chunk_text_eq. lia.
Qed.

(** A text without words: the pipeline is built and nothing else
    happens. *)
Lemma blank_text_summary (text : pystr) (length : Z) :
  forallb isspace text = true ->
  valid_target length ->
  exists p,
    get_summarizer length = (Ok p, [EvPipeline p])
    /\ chunk_text text (max_input_words p) = (Ok [], [])
    /\ safe_generate_summary text length = (Ok [], [EvPipeline p]).
Proof.
  intros Hblank Hv. destruct (get_summarizer_valid Hv) as [p [Hp [_ Hm]]].
  assert (Hc : chunk_text text (max_input_words p) = (Ok [], [])).
  { rewrite Hm, chunk_text_eq by lia. unfold chunk_starts.
    now rewrite (split_blank _ Hblank). }
  exists p. split; [exact Hp|]. split; [exact Hc|].
  now rewrite safe_generate_summary_eq with (p := p) (chunks := []) by assumption.
Qed.

End Summary.

(** *** The per-chunk limit *)

(** C4 (the code departs from the claim).  The test of line 33 looks for
    "long-t5" in the model name, and no pipeline [get_summarizer] builds
    has it: the pipeline of target 500, [pszemraj/led-large-book-summary],
    gets the limit 700 like the other two, and the 8000 of line 34 is never
    used.  A text of 2000 words at target 500 is cut into three chunks. *)
Theorem long_target_limit_is_700 :
  get_summarizer 500 = (Ok led_large, [EvPipeline led_large])
  /\ max_input_words led_large = 700
  /\ max_input_words flan_t5 = 700
  /\ max_input_words pegasus = 700
  /\ map (fun c => word_count (input c))
         (calls_of (snd (@safe_generate_summary example_env
                           two_thousand_words 500)))
     = [700; 700; 600].
Proof. repeat split; vm_compute; reflexivity. Qed.

(** The limit is 8000 exactly for a model whose lower-cased name contains
    "long-t5", such as [google/long-t5-tglobal-base]. *)
Lemma max_input_words_long_t5 :
  max_input_words
    (mk_pipeline "summarization" "google/Long-T5-tglobal-base" false) = 8000.
Proof. reflexivity. Qed.

Section Claims.

Context {env : Env}.

(** *** The calls to the capability *)

(** C5. For a valid target, [safe_generate_summary] calls the
    summarization capability on the chunks in chunk order, each call with
    maximum length the target, minimum length the floor of 80% of the
    target and at least 20, and sampling off.  The first chunk is always
    submitted; when the capability answers every chunk, every chunk is
    submitted; when it fails on a chunk, the chunks up to and including
    that one are submitted and the run raises that failure.  For target 60
    the minimum length is 48. *)
Theorem summarizer_call_arguments (text : pystr) (length : Z) :
  valid_target length ->
  exists p chunks n,
    get_summarizer length = (Ok p, [EvPipeline p])
    /\ chunk_text text (max_input_words p) = (Ok chunks, [])
    /\ n <= Datatypes.length chunks
    /\ calls_of (snd (safe_generate_summary text length))
       = map (fun chunk =>
                mk_call chunk length (Z.max 20 (80 * length / 100)) false)
             (firstn n chunks)
    /\ (forall final,
          fst (safe_generate_summary text length) = Ok final ->
          n = Datatypes.length chunks)
    /\ min_length_for 60 = (Ok 48%Z, [])
    /\ (chunks <> [] -> 1 <= n)
    /\ (forall raws,
          Forall2 (fun chunk raw =>
                     summarize p
                       (mk_call chunk length (Z.max 20 (80 * length / 100))
                                false)
                     = Ok raw)
                  chunks raws ->
          n = Datatypes.length chunks)
    /\ (forall pre c post raws e,
          chunks = pre ++ c :: post ->
          Forall2 (fun chunk raw =>
                     summarize p
                       (mk_call chunk length (Z.max 20 (80 * length / 100))
                                false)
                     = Ok raw)
                  pre raws ->
          summarize p
            (mk_call c length (Z.max 20 (80 * length / 100)) false)
          = Raise e ->
          n = S (Datatypes.length pre)
          /\ fst (safe_generate_summary text length) = Raise e).
Proof.
  intros Hv. destruct (valid_request text Hv) as [p [chunks [Hp [_ Hc]]]].
  pose proof (min_length_valid Hv) as Hlo.
  pose proof (safe_generate_summary_eq text length Hp Hc) as Hsafe.
  destruct (summarize_chunks_trace p length Hlo chunks) as [n [Hn [Htr Hall]]].
  assert (Hfirst : chunks <> [] -> 1 <= n).
  { intros Hne. destruct chunks as [|c rest]; [contradiction|].
    rewrite (summarize_chunks_cons p length Hlo) in Htr. cbv zeta in Htr.
    destruct n; [|lia]. exfalso.
    destruct (summarize p _);
      [destruct (summarize_chunks p length rest) as [[?|?] ?]|];
      discriminate. }
  assert (Hevery : forall raws,
             Forall2 (fun chunk raw =>
                        summarize p
                          (call_for length (Z.max 20 (80 * length / 100))
                                    chunk) = Ok raw)
                     chunks raws ->
             n = Datatypes.length chunks).
  { intros raws HF. rewrite (summarize_chunks_ok p length Hlo HF) in Htr.
    apply (f_equal (@Datatypes.length _)) in Htr.
    simpl in Htr. rewrite !length_map, length_firstn in Htr. lia. }
  assert (Hstop : forall pre c post raws e,
             chunks = pre ++ c :: post ->
             Forall2 (fun chunk raw =>
                        summarize p
                          (call_for length (Z.max 20 (80 * length / 100))
                                    chunk) = Ok raw)
                     pre raws ->
             summarize p
               (call_for length (Z.max 20 (80 * length / 100)) c) = Raise e ->
             n = S (Datatypes.length pre)
             /\ fst (safe_generate_summary text length) = Raise e).
  { intros pre c post raws e Hch HF He. subst chunks.
    pose proof (@summarize_chunks_fail _ p length _ pre c post raws e
                  Hlo HF He) as E.
    rewrite Hsafe, E. split; [|reflexivity].
    rewrite E in Htr. apply (f_equal (@Datatypes.length _)) in Htr.
    simpl in Htr. rewrite !length_map, length_firstn, !length_app in Htr.
    rewrite length_app in Hn. simpl in Htr, Hn. lia. }
  exists p, chunks, n.
  split; [exact Hp|]. split; [exact Hc|]. split; [exact Hn|].
  split; [|split; [|split; [reflexivity|]]].
  - rewrite Hsafe.
    destruct (summarize_chunks p length chunks) as [[ss|e] tr];
      simpl in *; subst tr; apply calls_of_summarize.
  - rewrite Hsafe.
    destruct (summarize_chunks p length chunks) as [[ss|e] tr];
      simpl; intros final E; [now apply (Hall ss) | discriminate].
  - split; [exact Hfirst|]. split; [exact Hevery | exact Hstop].
Qed.

(** *** The final summary *)

(** C6. For a valid target, [safe_generate_summary] returns a summary
    exactly when the capability answers every chunk, and the summary is
    then the answers in chunk order, each stripped of leading and trailing
    whitespace, joined with single spaces. *)
Theorem final_summary_joins_stripped_partials (text : pystr) (length : Z) :
  valid_target length ->
  exists p chunks,
    get_summarizer length = (Ok p, [EvPipeline p])
    /\ chunk_text text (max_input_words p) = (Ok chunks, [])
    /\ forall final,
         fst (safe_generate_summary text length) = Ok final <->
         exists partials,
           Forall2 (fun chunk partial =>
                      summarize p
                        (call_for length (Z.max 20 (80 * length / 100)) chunk)
                      = Ok partial)
                   chunks partials
           /\ final = join space (map strip partials).
Proof.
  intros Hv. destruct (valid_request text Hv) as [p [chunks [Hp [_ Hc]]]].
  pose proof (min_length_valid Hv) as Hlo.
  exists p, chunks. repeat (split; [assumption|]).
  intros final. rewrite (safe_generate_summary_eq text length Hp Hc). split.
  - destruct (summarize_chunks p length chunks) as [[ss|e] tr] eqn:Hs;
      [|discriminate].
    simpl. intros [= <-].
    destruct (summarize_chunks_inv p length Hlo chunks (summaries := ss))
      as [partials [HF ->]]; [now rewrite Hs|].
    now exists partials.
  - intros [partials [HF ->]].
    now rewrite (summarize_chunks_ok p length Hlo HF).
Qed.

(** A capability that answers every call answers every chunk. *)
Lemma answers_exist (Q : pystr -> Prop) (p : pipeline) (length lo : Z)
    (chunks : list pystr) :
  (forall c, exists raw, summarize p c = Ok raw /\ Q raw) ->
  exists raws,
    Forall2 (fun chunk raw => summarize p (call_for length lo chunk) = Ok raw)
            chunks raws
    /\ Forall Q raws.
Proof.
  intros Hall. induction chunks as [|chunk chunks [raws [HF HQ]]].
  - exists []. split; constructor.
  - destruct (Hall (call_for length lo chunk)) as [raw [Hraw Hq]].
    exists (raw :: raws). split; now constructor.
Qed.

(** C7 (amended).  For every text with at least one non-whitespace
    character and every valid target, when the capability answers each call
    with a summary that has a non-whitespace character,
    [safe_generate_summary] returns a non-empty summary. *)
Theorem nonblank_text_nonempty_summary (text : pystr) (length : Z) :
  has_nonspace text = true ->
  valid_target length ->
  (forall p c, exists raw, summarize p c = Ok raw /\ has_nonspace raw = true) ->
  exists final tr,
    safe_generate_summary text length = (Ok final, tr) /\ final <> [].
Proof.
  intros Htext Hv Hcap.
  destruct (get_summarizer_valid Hv) as [p [Hp [_ Hm]]].
  pose proof (min_length_valid Hv) as Hlo.
  assert (Hc := chunk_text_eq text (limit := 700) ltac:(lia)).
  rewrite <- Hm in Hc at 1.
  remember (map (fun i => join space (slice (split text) i (i + 700)))
              (chunk_starts text 700)) as chunks eqn:Hchunks.
  assert (Hne : chunks <> []).
  { assert (Hwords : split text <> [])
      by (apply split_from_nonempty; now right).
    subst chunks. unfold chunk_starts.
    destruct (split text) as [|w ws]; [contradiction|].
    cbn [Datatypes.length range_loop Nat.ltb Nat.leb map]. discriminate. }
  destruct (@answers_exist (fun raw => has_nonspace raw = true) p length
              (Z.max 20 (80 * length / 100)) chunks (Hcap p))
    as [raws [HF HQ]].
  rewrite (safe_generate_summary_eq text length Hp Hc),
          (summarize_chunks_ok p length Hlo HF).
  do 2 eexists. split; [reflexivity|].
  destruct HF as [|chunk raw chunks raws _ _]; [contradiction|].
  inversion HQ as [|? ? Hraw _]; subst.
  intros E. apply join_nil_inv in E as [E|E]; [discriminate|].
  injection E as E _. revert E. now apply strip_nonempty.
Qed.

(** *** Invalid targets *)

(** C8. For every target other than 60, 150 and 500, [get_summarizer]
    raises [ValueError] without building any pipeline, and
    [safe_generate_summary] raises with it. *)
Theorem invalid_target_rejected (length : Z) :
  (length <> 60)%Z -> (length <> 150)%Z -> (length <> 500)%Z ->
  get_summarizer length = (Raise (ValueError "Invalid summary length."), [])
  /\ forall text,
       safe_generate_summary text length
       = (Raise (ValueError "Invalid summary length."), []).
Proof.
  intros H1 H2 H3. pose proof (get_summarizer_invalid H1 H2 H3) as H.
  split; [exact H|]. intros text. unfold safe_generate_summary.
  now rewrite H.
Qed.

(** *** A page without paragraphs *)

(** A failed fetch does fail the acquisition. *)
Lemma extract_text_from_url_fetch_error (url : pystr) (e : exn) :
  requests_get url = Raise e ->
  extract_text_from_url url = (Raise e, [EvRequest url]).
Proof. intros H. unfold extract_text_from_url, external. now rewrite H. Qed.

(** C9 (amended).  When the fetch returns a page without any paragraph
    element, [extract_text_from_url] does not fail: it returns the empty
    text.  The handler passes it to [safe_generate_summary], which builds
    the pipeline, calls the capability on no chunk and returns the empty
    summary, and the handler goes on to [generate_audio] with it. *)
Theorem page_without_paragraphs (url content : pystr) (length : Z) :
  truthy url = true ->
  requests_get url = Ok content ->
  find_all "p" (html_parser content) = [] ->
  valid_target length ->
  extract_text_from_url url = (Ok [], [EvRequest url])
  /\ exists p,
       safe_generate_summary [] length = (Ok [], [EvPipeline p])
       /\ on_generate (InURL url) length
          = (match gtts_save [] with
             | Ok path => Ok ([], path)
             | Raise e => Raise e
             end,
             [EvRequest url; EvPipeline p; EvSpeech []]).
Proof.
  intros Hurl Hget Hnop Hv.
  assert (Hx : extract_text_from_url url = (Ok [], [EvRequest url])).
  { unfold extract_text_from_url, external. rewrite Hget. unfold bind.
    now rewrite Hnop. }
  split; [exact Hx|].
  destruct (blank_text_summary [] eq_refl Hv) as [p [_ [_ Hs]]].
  exists p. split; [exact Hs|].
  unfold on_generate, acquire_text. rewrite Hurl, Hx. unfold bind at 1.
  rewrite Hs. unfold bind at 1. unfold generate_audio, external, bind.
  now destruct (gtts_save []).
Qed.

(** *** A text without words *)

(** C10. For every text that is empty or all whitespace and every valid
    target, [safe_generate_summary] produces no chunk, makes no call to the
    summarization capability, raises nothing and returns the empty
    string. *)
Theorem blank_text_no_calls (text : pystr) (length : Z) :
  forallb isspace text = true ->
  valid_target length ->
  exists p,
    chunk_text text (max_input_words p) = (Ok [], [])
    /\ safe_generate_summary text length = (Ok [], [EvPipeline p])
    /\ calls_of (snd (safe_generate_summary text length)) = [].
Proof.
  intros Hblank Hv.
  destruct (blank_text_summary text Hblank Hv) as [p [_ [Hc Hs]]].
  exists p. split; [exact Hc|]. split; [exact Hs|]. now rewrite Hs.
Qed.

End Claims.

(** *** The statements at concrete inputs *)

Example chunk_text_ragged :
  chunk_text ragged_text 2
  = (Ok [of_string "the quick"; of_string "brown fox"; of_string "jumps"], []).
Proof. reflexivity. Qed.

Lemma chunking_lossless_witness :
  0 < 2 /\
  exists chunks,
    chunk_text ragged_text 2 = (Ok chunks, [])
    /\ join space (concat (map split chunks)) = join space (split ragged_text)
    /\ join space chunks = join space (split ragged_text).
Proof. split; [lia | apply chunking_lossless; lia]. Defined.

Lemma chunk_within_limit_witness :
  0 < 2 /\
  (exists chunks,
     chunk_text ragged_text 2 = (Ok chunks, [])
     /\ Forall (fun chunk => word_count chunk <= 2) chunks)
  /\ (forall summarizer,
        max_input_words summarizer = 700 \/ max_input_words summarizer = 8000).
Proof. split; [lia | apply chunk_within_limit; lia]. Defined.

Lemma chunk_count_witness :
  0 < 700 /\
  exists chunks,
    chunk_text two_thousand_words 700 = (Ok chunks, [])
    /\ Datatypes.length chunks = 3
    /\ map word_count chunks = [700; 700; 600].
Proof.
  assert (Hpos : 0 < 700) by (apply Nat.ltb_lt; reflexivity).
  split; [exact Hpos|].
  destruct (chunk_count two_thousand_words Hpos)
    as [chunks [Hc [Hlen [_ [_ Hsizes]]]]].
  exists chunks. split; [exact Hc|]. split.
  - rewrite Hlen. vm_compute. reflexivity.
  - apply Hsizes; vm_compute; reflexivity.
Defined.

(** The end-to-end scenario of the short text: one chunk, one call with
    [max_length=60], [min_length=48] and no sampling, and the stripped
    answer as the summary. *)
Example hello_world_summary :
  @safe_generate_summary example_env hello_world 60
  = (Ok (of_string "The gist."),
     [EvPipeline flan_t5;
      EvSummarize flan_t5 (mk_call hello_world 60 48 false)]).
Proof. reflexivity. Qed.

(** The scenario of 2000 words: three calls, three answers joined. *)
Example two_thousand_words_summary :
  fst (@safe_generate_summary example_env two_thousand_words 60)
  = Ok (of_string "The gist. The gist. The gist.").
Proof. vm_compute. reflexivity. Qed.

Lemma summarizer_call_arguments_witness :
  valid_target 60 /\
  exists p chunks n,
    get_summarizer 60 = (Ok p, [EvPipeline p])
    /\ chunk_text hello_world (max_input_words p) = (Ok chunks, [])
    /\ n <= Datatypes.length chunks
    /\ calls_of (snd (@safe_generate_summary example_env hello_world 60))
       = map (fun chunk => mk_call chunk 60 (Z.max 20 (80 * 60 / 100)) false)
             (firstn n chunks)
    /\ (forall final,
          fst (@safe_generate_summary example_env hello_world 60) = Ok final ->
          n = Datatypes.length chunks)
    /\ min_length_for 60 = (Ok 48%Z, [])
    /\ (chunks <> [] -> 1 <= n)
    /\ (forall raws,
          Forall2 (fun chunk raw =>
                     @summarize example_env p
                       (mk_call chunk 60 (Z.max 20 (80 * 60 / 100)) false)
                     = Ok raw)
                  chunks raws ->
          n = Datatypes.length chunks)
    /\ (forall pre c post raws e,
          chunks = pre ++ c :: post ->
          Forall2 (fun chunk raw =>
                     @summarize example_env p
                       (mk_call chunk 60 (Z.max 20 (80 * 60 / 100)) false)
                     = Ok raw)
                  pre raws ->
          @summarize example_env p
            (mk_call c 60 (Z.max 20 (80 * 60 / 100)) false)
          = Raise e ->
          n = S (Datatypes.length pre)
          /\ fst (@safe_generate_summary example_env hello_world 60)
             = Raise e).
Proof.
  split; [now left|].
  apply (summarizer_call_arguments (env := example_env)). now left.
Defined.

(** The calls at concrete inputs: every chunk of the 2000-word text when
    the capability answers, the first two chunks of the 701-word text when
    it fails on the second. *)
Example calls_two_thousand_words :
  calls_of (snd (@safe_generate_summary example_env two_thousand_words 150))
  = map (fun chunk => mk_call chunk 150 120 false)
        [join space (repeat (of_string "word") 700);
         join space (repeat (of_string "word") 700);
         join space (repeat (of_string "word") 600)].
Proof. vm_compute. reflexivity. Qed.

Example calls_until_failure :
  calls_of (snd (@safe_generate_summary flaky_env seven_hundred_one_words 60))
  = map (fun chunk => mk_call chunk 60 48 false)
        [join space (repeat (of_string "w") 700); of_string "w"]
  /\ fst (@safe_generate_summary flaky_env seven_hundred_one_words 60)
     = Raise (ExternalError "transformers: IndexError").
Proof. split; vm_compute; reflexivity. Qed.

Lemma final_summary_joins_stripped_partials_witness :
  valid_target 60 /\
  exists p chunks,
    get_summarizer 60 = (Ok p, [EvPipeline p])
    /\ chunk_text hello_world (max_input_words p) = (Ok chunks, [])
    /\ forall final,
         fst (@safe_generate_summary example_env hello_world 60) = Ok final <->
         exists partials,
           Forall2 (fun chunk partial =>
                      @summarize example_env p
                        (call_for 60 (Z.max 20 (80 * 60 / 100)) chunk)
                      = Ok partial)
                   chunks partials
           /\ final = join space (map strip partials).
Proof.
  split; [now left|].
  apply (final_summary_joins_stripped_partials (env := example_env)).
  now left.
Defined.

(** C7 as stated fails: a text of one space is not empty, and its summary
    is, for a capability that answers every call with a sentence. *)
Lemma blank_text_empty_summary :
  ~ (of_string " " <> [] ->
     valid_target 60 ->
     exists final tr,
       @safe_generate_summary example_env (of_string " ") 60 = (Ok final, tr)
       /\ final <> []).
Proof.
  intros H. destruct H as [final [tr [E Hne]]];
    [discriminate | now left |].
  vm_compute in E. injection E as <- _. now apply Hne.
Qed.

Lemma nonblank_text_nonempty_summary_witness :
  has_nonspace hello_world = true /\
  valid_target 60 /\
  exists final tr,
    @safe_generate_summary example_env hello_world 60 = (Ok final, tr)
    /\ final <> [].
Proof.
  split; [reflexivity|]. split; [now left|].
  apply (nonblank_text_nonempty_summary (env := example_env)).
  - reflexivity.
  - now left.
  - intros p c. eexists. split; reflexivity.
Defined.

Lemma invalid_target_rejected_witness :
  (99 <> 60)%Z /\ (99 <> 150)%Z /\ (99 <> 500)%Z /\
  get_summarizer 99 = (Raise (ValueError "Invalid summary length."), [])
  /\ forall text,
       @safe_generate_summary example_env text 99
       = (Raise (ValueError "Invalid summary length."), []).
Proof.
  repeat (split; [discriminate|]).
  apply (invalid_target_rejected (env := example_env)); discriminate.
Defined.

(** C9 as stated fails: on a page without paragraph elements the
    acquisition raises nothing, and the handler goes on to build the
    summarization pipeline. *)
Lemma page_without_paragraphs_no_failure :
  find_all "p" (@html_parser example_env (of_string "<html>...</html>")) = []
  /\ ~ (exists e tr,
          @acquire_text example_env (InURL example_url) = (Raise e, tr))
  /\ @on_generate example_env (InURL example_url) 60
     = (Raise (ExternalError "gTTS: No text to speak"),
        [EvRequest example_url; EvPipeline flan_t5; EvSpeech []]).
Proof.
  split; [reflexivity|]. split; [|reflexivity].
  intros [e [tr E]]. vm_compute in E. discriminate.
Qed.

Lemma page_without_paragraphs_witness :
  truthy example_url = true /\
  @requests_get example_env example_url = Ok (of_string "<html>...</html>") /\
  find_all "p" (@html_parser example_env (of_string "<html>...</html>")) = [] /\
  valid_target 60 /\
  @extract_text_from_url example_env example_url
  = (Ok [], [EvRequest example_url])
  /\ exists p,
       @safe_generate_summary example_env [] 60 = (Ok [], [EvPipeline p])
       /\ @on_generate example_env (InURL example_url) 60
          = (match @gtts_save example_env [] with
             | Ok path => Ok ([], path)
             | Raise e => Raise e
             end,
             [EvRequest example_url; EvPipeline p; EvSpeech []]).
Proof.
  split; [reflexivity|]. split; [reflexivity|]. split; [reflexivity|].
  split; [now left|].
  apply (page_without_paragraphs (env := example_env))
    with (content := of_string "<html>...</html>");
    solve [reflexivity | now left].
Defined.

Lemma blank_text_no_calls_witness :
  forallb isspace blank_text = true /\
  valid_target 150 /\
  exists p,
    chunk_text blank_text (max_input_words p) = (Ok [], [])
    /\ @safe_generate_summary example_env blank_text 150
       = (Ok [], [EvPipeline p])
    /\ calls_of (snd (@safe_generate_summary example_env blank_text 150)) = [].
Proof.
  split; [reflexivity|]. split; [right; now left|].
  apply (blank_text_no_calls (env := example_env)).
  - reflexivity.
  - right. now left.
Defined.

End NASFacts.

(* ================================================================== *)
(** ** Further facts: the rest of the helpers and the handler *)
(* ================================================================== *)

Module MoreFacts.

Import PyStr Html NAS Obs PyStrFacts NASFacts.

(** *** Words across a separator *)

(** A whitespace character between two texts separates their words. *)
Lemma split_from_sep (a cur : pystr) (c : codepoint) (b : pystr) :
  isspace c = true ->
  split_from cur (a ++ c :: b) = split_from cur a ++ split b.
Proof.
  intros Hc. revert cur. induction a as [|x a IH]; intros cur; simpl.
  - rewrite Hc. now destruct cur.
  - destruct (isspace x).
    + destruct cur; [apply IH | simpl; f_equal; apply IH].
    + apply IH.
Qed.

(** The words of a space-joined list of texts are the words of the texts,
    in order. *)
Lemma split_join_texts (xs : list pystr) :
  split (join space xs) = flat_map split xs.
Proof.
  induction xs as [|x xs IH]; [reflexivity|].
  destruct xs as [|y xs].
  - simpl. now rewrite app_nil_r.
  - change (join space (x :: y :: xs))
      with (x ++ 32%N :: join space (y :: xs)).
    unfold split at 1. rewrite split_from_sep by reflexivity.
    fold (split x). rewrite IH. reflexivity.
Qed.

Lemma flat_map_split_filter (xs : list pystr) :
  flat_map split (filter truthy xs) = flat_map split xs.
Proof.
  induction xs as [|x xs IH]; [reflexivity|].
  destruct x; simpl; now rewrite IH.
Qed.

(** *** The shape of the chunks *)

(** In a range, every member but the last is followed by one more step
    below the stop. *)
Lemma range_loop_init (fuel i stop step : nat) (pre : list nat) (l : nat) :
  range_loop fuel i stop step = pre ++ [l] ->
  Forall (fun x => x + step < stop) pre.
Proof.
  revert i pre. induction fuel as [|fuel IH]; intros i pre; simpl.
  - intros H. now destruct pre.
  - destruct (i <? stop); [|intros H; now destruct pre].
    destruct pre as [|x pre]; [constructor|].
    simpl. intros [= <- H]. constructor; [|now apply (IH (i + step))].
    destruct fuel as [|fuel]; simpl in H; [now destruct pre|].
    destruct (i + step <? stop) eqn:Hlt; [|now destruct pre].
    now apply Nat.ltb_lt.
Qed.

(** X1. With a positive limit no chunk is empty, every chunk but the last
    has exactly [limit] words, and the word counts of the chunks add up to
    the word count of the text. *)
Theorem chunks_full_but_last (text : pystr) (limit : nat) :
  0 < limit ->
  exists chunks,
    chunk_text text limit = (Ok chunks, [])
    /\ Forall (fun chunk => 1 <= word_count chunk) chunks
    /\ list_sum (map word_count chunks) = word_count text
    /\ forall pre last,
         chunks = pre ++ [last] ->
         Forall (fun chunk => word_count chunk = limit) pre.
Proof.
  intros Hpos. eexists. split; [now apply chunk_text_eq|].
  split; [|split].
  - apply Forall_forall. intros chunk Hin.
    apply in_map_iff in Hin as [i [<- Hi]].
    apply (starts_in_range text Hpos) in Hi.
    unfold word_count. rewrite chunk_words, slice_length. lia.
  - unfold word_count at 1.
    rewrite <- (map_map split (@length pystr)), chunks_words.
    rewrite <- length_concat, (slices_concat text Hpos). reflexivity.
  - intros pre last Hsplit.
    apply map_eq_app in Hsplit as [spre [sl [Hstarts [<- Hl]]]].
    destruct sl as [|sl [|? ?]]; try discriminate.
    apply range_loop_init in Hstarts.
    apply Forall_forall. intros chunk Hin.
    apply in_map_iff in Hin as [i [<- Hi]].
    pose proof (proj1 (Forall_forall _ _) Hstarts i Hi) as Hfull.
    cbv beta in Hfull. unfold word_count. rewrite chunk_words, slice_length. lia.
Qed.

Lemma chunks_full_but_last_witness :
  0 < 2 /\
  exists chunks,
    chunk_text ragged_text 2 = (Ok chunks, [])
    /\ Forall (fun chunk => 1 <= word_count chunk) chunks
    /\ list_sum (map word_count chunks) = word_count ragged_text
    /\ forall pre last,
         chunks = pre ++ [last] ->
         Forall (fun chunk => word_count chunk = 2) pre.
Proof. split; [lia | apply chunks_full_but_last; lia]. Defined.

(** A text of at most [limit] words, and at least one, is one chunk: the
    text with its whitespace normalized. *)
Lemma chunk_text_single (text : pystr) (limit : nat) :
  1 <= word_count text <= limit ->
  chunk_text text limit = (Ok [join space (split text)], []).
Proof.
  unfold word_count. intros [Hlo Hhi].
  rewrite chunk_text_eq by lia. unfold chunk_starts, slice.
  destruct (Datatypes.length (split text)) as [|n] eqn:Hn; [lia|].
  cbn [range_loop Nat.ltb Nat.leb map].
  assert (Hstop : range_loop n (0 + limit) (S n) limit = []).
  { destruct n; simpl; [reflexivity|].
    destruct (limit <? S (S n)) eqn:E; [|reflexivity].
    apply Nat.ltb_lt in E. lia. }
  rewrite Hstop. cbn [map skipn]. rewrite Nat.sub_0_r.
  now rewrite firstn_all2 by lia.
Qed.

Section Acquisition.

Context {env : Env}.

(** *** What the three extraction paths yield *)

(** X2. When the reader opens the file, [extract_text_from_pdf] does not
    fail; the words of its text are the words of the pages in page order
    (none joined across a page break, none lost), and a file none of whose
    pages has text gives the empty text.  When the reader fails, so does
    the extraction. *)
Theorem pdf_text_words (file : UploadedFile) :
  match pdf_pages file with
  | Ok pages =>
      exists text,
        extract_text_from_pdf file = (Ok text, [EvPdfReader file])
        /\ split text = flat_map split pages
        /\ (Forall (fun page => page = []) pages -> text = [])
  | Raise e =>
      extract_text_from_pdf file = (Raise e, [EvPdfReader file])
  end.
Proof.
  unfold extract_text_from_pdf, external, bind, ret.
  destruct (pdf_pages file) as [pages|e]; [|reflexivity].
  eexists. split; [reflexivity|]. split.
  - now rewrite split_join_texts, flat_map_split_filter.
  - intros Hempty. induction Hempty as [|page pages -> _ IH]; auto.
Qed.

(** X3. When the fetch succeeds, [extract_text_from_url] does not fail, and
    the words of its text are the words of the text of the [p] elements of
    the page, in document order. *)
Theorem url_text_words (url content : pystr) :
  requests_get url = Ok content ->
  exists text,
    extract_text_from_url url = (Ok text, [EvRequest url])
    /\ split text
       = flat_map (fun p => split (get_text p))
                  (find_all "p" (html_parser content)).
Proof.
  intros Hget. unfold extract_text_from_url, external, bind, ret.
  rewrite Hget. eexists. split; [reflexivity|].
  rewrite split_join_texts, !flat_map_concat_map, map_map. reflexivity.
Qed.

(** X4. In digest mode the text to summarize is the instruction followed
    by the input: its words are the fifteen words of the instruction and
    then the words of the input, and nothing is fetched or read. *)
Theorem digest_text_words (digest_input : pystr) :
  truthy digest_input = true ->
  exists text,
    acquire_text (InDigest digest_input) = (Ok text, [])
    /\ split text = preamble_words ++ split digest_input
    /\ word_count text = 15 + word_count digest_input.
Proof.
  intros Hd. unfold acquire_text. rewrite Hd.
  eexists. split; [reflexivity|].
  assert (Hw : split (digest_preamble ++ digest_input)
               = preamble_words ++ split digest_input).
  { unfold digest_preamble. rewrite <- app_assoc. unfold split at 1.
    now rewrite (@split_from_sep _ [] 10%N digest_input eq_refl). }
  split; [exact Hw|]. unfold word_count. now rewrite Hw, length_app.
Qed.

End Acquisition.

(** *** Traces *)

Lemma speech_of_app (t1 t2 : list event) :
  speech_of (t1 ++ t2) = speech_of t1 ++ speech_of t2.
Proof.
  induction t1 as [|ev t1 IH]; [reflexivity|].
  destruct ev; simpl; now rewrite IH.
Qed.

Lemma pipelines_of_app (t1 t2 : list event) :
  pipelines_of (t1 ++ t2) = pipelines_of t1 ++ pipelines_of t2.
Proof.
  induction t1 as [|ev t1 IH]; [reflexivity|].
  destruct ev; simpl; now rewrite IH.
Qed.

(** A trace of calls to the capability has no other event. *)
Lemma summarize_events (p : pipeline) (f : pystr -> call)
    (chunks : list pystr) :
  let tr := map (fun chunk => EvSummarize p (f chunk)) chunks in
  speech_of tr = [] /\ pipelines_of tr = []
  /\ existsb is_st_error tr = false.
Proof. induction chunks as [|c cs IH]; simpl; auto. Qed.

Lemma target_cases (length : Z) :
  valid_target length
  \/ ((length <> 60)%Z /\ (length <> 150)%Z /\ (length <> 500)%Z).
Proof. unfold valid_target. lia. Qed.

Section Handler.

Context {env : Env}.

(** The trace of [safe_generate_summary], for any text and any target:
    nothing, or one pipeline and then calls to it. *)
Lemma safe_trace (text : pystr) (length : Z) :
  snd (safe_generate_summary text length) = []
  \/ exists p (f : pystr -> call) (chunks : list pystr),
       snd (safe_generate_summary text length)
       = EvPipeline p :: map (fun chunk => EvSummarize p (f chunk)) chunks.
Proof.
  destruct (target_cases length) as [Hv | [H1 [H2 H3]]].
  - right. destruct (valid_request text Hv) as [p [chunks [Hp [_ Hc]]]].
    pose proof (min_length_valid Hv) as Hlo.
    destruct (summarize_chunks_trace p length Hlo chunks) as [n [_ [Htr _]]].
    exists p, (call_for length (Z.max 20 (80 * length / 100))),
      (firstn n chunks).
    rewrite (safe_generate_summary_eq text length Hp Hc).
    destruct (summarize_chunks p length chunks) as [[ss|e] tr];
      simpl in *; now subst tr.
  - left. unfold safe_generate_summary.
    now rewrite (get_summarizer_invalid H1 H2 H3).
Qed.

Lemma safe_trace_obs (text : pystr) (length : Z) :
  let tr := snd (safe_generate_summary text length) in
  speech_of tr = [] /\ existsb is_st_error tr = false.
Proof.
  destruct (safe_trace text length) as [E | [p [f [chunks E]]]];
    cbv zeta; rewrite E; [auto|].
  simpl. destruct (summarize_events p f chunks) as [H1 [_ H2]]. auto.
Qed.

(** The trace of the acquisition: at most one event, never a pipeline or
    a speech, and an [st.error] exactly when the payload is missing. *)
Lemma acquire_trace_obs (inp : RawInput) :
  let tr := snd (acquire_text inp) in
  speech_of tr = [] /\ pipelines_of tr = [] /\ calls_of tr = []
  /\ existsb is_st_error tr = payload_missing inp.
Proof.
  destruct inp as [t | u | [f|] | d]; cbn [acquire_text payload_missing].
  - destruct (truthy t); simpl; auto.
  - destruct (truthy u); simpl; auto.
    unfold extract_text_from_url, external, bind.
    destruct (requests_get u); simpl; auto.
  - unfold extract_text_from_pdf, external, bind.
    destruct (pdf_pages f); simpl; auto.
  - simpl; auto.
  - destruct (truthy d); simpl; auto.
Qed.

(** The handler, step by step. *)
Lemma on_generate_eq (inp : RawInput) (length : Z) :
  on_generate inp length
  = match acquire_text inp with
    | (Raise e, t1) => (Raise e, t1)
    | (Ok text, t1) =>
        match safe_generate_summary text length with
        | (Raise e, t2) => (Raise e, t1 ++ t2)
        | (Ok summary, t2) =>
            (match gtts_save summary with
             | Ok path => Ok (summary, path)
             | Raise e => Raise e
             end,
             t1 ++ t2 ++ [EvSpeech summary])
        end
    end.
Proof.
  unfold on_generate, bind at 1.
  destruct (acquire_text inp) as [[text|e] t1]; [|reflexivity].
  unfold bind at 1.
  destruct (safe_generate_summary text length) as [[summary|e] t2];
    [|reflexivity].
  unfold generate_audio, external, bind, ret.
  destruct (gtts_save summary); simpl; now rewrite ?app_nil_r.
Qed.

(** X5. Whatever the input and the target, the handler synthesizes speech
    at most once: on the summary [safe_generate_summary] returned when it
    returned one, as the last event, and not at all when the acquisition or
    the summarization raised. *)
Theorem speech_only_on_returned_summary (inp : RawInput) (length : Z) :
  speech_of (snd (on_generate inp length))
  = match acquire_text inp with
    | (Ok text, _) =>
        match fst (safe_generate_summary text length) with
        | Ok summary => [summary]
        | Raise _ => []
        end
    | (Raise _, _) => []
    end
  /\ forall summary path tr,
       on_generate inp length = (Ok (summary, path), tr) ->
       gtts_save summary = Ok path
       /\ exists tr', tr = tr' ++ [EvSpeech summary] /\ speech_of tr' = [].
Proof.
  rewrite on_generate_eq.
  destruct (acquire_trace_obs inp) as [Ha _].
  destruct (acquire_text inp) as [[text|e] t1]; simpl in Ha.
  - destruct (safe_trace_obs text length) as [Hs _].
    destruct (safe_generate_summary text length) as [[s|e] t2];
      simpl in Hs; simpl.
    + split.
      * now rewrite !speech_of_app, Ha, Hs.
      * intros summary path tr E.
        destruct (gtts_save s) as [path'|e] eqn:Hg; [|discriminate].
        injection E as <- <- <-. split; [exact Hg|].
        exists (t1 ++ t2). split; [now rewrite app_assoc|].
        now rewrite speech_of_app, Ha, Hs.
    + split; [now rewrite speech_of_app, Ha, Hs | discriminate].
  - split; [exact Ha | discriminate].
Qed.

(** X6. The handler shows its error exactly when the payload of the
    selected input type is missing; the request then stops there, whatever
    the target: nothing is fetched, read, loaded or spoken. *)
Theorem error_shown_iff_payload_missing (inp : RawInput) (length : Z) :
  existsb is_st_error (snd (on_generate inp length)) = payload_missing inp
  /\ (payload_missing inp = true ->
      on_generate inp length
      = (Raise StopException, [EvStError "Please provide a valid input."])).
Proof.
  split.
  - rewrite on_generate_eq.
    destruct (acquire_trace_obs inp) as [_ [_ [_ Ha]]].
    destruct (acquire_text inp) as [[text|e] t1]; simpl in Ha; [|exact Ha].
    destruct (safe_trace_obs text length) as [_ Hs].
    destruct (safe_generate_summary text length) as [[s|e] t2];
      simpl in Hs; simpl; rewrite !existsb_app, Ha, Hs; simpl;
      now rewrite ?orb_false_r.
  - intros Hm. rewrite on_generate_eq.
    destruct inp as [t | u | [f|] | d]; simpl in Hm;
      try discriminate; cbn [acquire_text];
      try (apply negb_true_iff in Hm; rewrite Hm); reflexivity.
Qed.

End Handler.

Section Outcomes.

Context {env : Env}.

(** X7. When the acquisition raises (a failed fetch, an unreadable PDF, a
    missing payload), the handler raises the same exception with the same
    trace: no pipeline is built, the capability is not called, nothing is
    spoken. *)
Theorem acquisition_failure_aborts (inp : RawInput) (length : Z)
    (e : exn) (tr : list event) :
  acquire_text inp = (Raise e, tr) ->
  on_generate inp length = (Raise e, tr)
  /\ pipelines_of tr = [] /\ calls_of tr = [] /\ speech_of tr = [].
Proof.
  intros H. rewrite on_generate_eq, H. split; [reflexivity|].
  destruct (acquire_trace_obs inp) as [H1 [H2 [H3 _]]].
  rewrite H in H1, H2, H3. auto.
Qed.

(** X8. With a target outside 60, 150 and 500 the handler still acquires
    the text first (the page is fetched, the file is read) and only then
    raises the [ValueError]; no pipeline is built and nothing is spoken. *)
Theorem invalid_target_after_acquisition (inp : RawInput) (length : Z)
    (text : pystr) (t1 : list event) :
  acquire_text inp = (Ok text, t1) ->
  (length <> 60)%Z -> (length <> 150)%Z -> (length <> 500)%Z ->
  on_generate inp length
  = (Raise (ValueError "Invalid summary length."), t1).
Proof.
  intros Ha H1 H2 H3. rewrite on_generate_eq, Ha.
  unfold safe_generate_summary.
  rewrite (get_summarizer_invalid H1 H2 H3). simpl.
  now rewrite app_nil_r.
Qed.

(** X9. For a valid target, a text of one to 700 words is summarized in a
    single call whose input is the text with its whitespace normalized; the
    summary is the stripped answer, and a failure of that call is the
    failure of the request. *)
Theorem short_text_single_call (text : pystr) (length : Z) :
  valid_target length ->
  1 <= word_count text <= 700 ->
  exists p,
    let c := call_for length (Z.max 20 (80 * length / 100))
                      (join space (split text)) in
    safe_generate_summary text length
    = (match summarize p c with
       | Ok raw => Ok (strip raw)
       | Raise e => Raise e
       end,
       [EvPipeline p; EvSummarize p c]).
Proof.
  intros Hv Hwc. destruct (get_summarizer_valid Hv) as [p [Hp [_ Hm]]].
  pose proof (min_length_valid Hv) as Hlo.
  assert (Hc : chunk_text text (max_input_words p)
               = (Ok [join space (split text)], []))
    by (rewrite Hm; now apply chunk_text_single).
  exists p. cbv zeta.
  rewrite (safe_generate_summary_eq text length Hp Hc).
  rewrite (summarize_chunks_cons p length Hlo). cbv zeta.
  destruct (summarize p _) as [raw|e]; reflexivity.
Qed.

(** X10. For a valid target, when the capability answers the first chunks
    and fails on the next, [safe_generate_summary] raises that failure: the
    answers already obtained are dropped, the chunks after the failing one
    are never submitted. *)
Theorem chunk_failure_aborts (text : pystr) (length : Z) (p : pipeline)
    (pre : list pystr) (c : pystr) (post raws : list pystr) (e : exn) :
  valid_target length ->
  get_summarizer length = (Ok p, [EvPipeline p]) ->
  chunk_text text (max_input_words p) = (Ok (pre ++ c :: post), []) ->
  Forall2 (fun chunk raw =>
             summarize p (call_for length (Z.max 20 (80 * length / 100)) chunk)
             = Ok raw)
          pre raws ->
  summarize p (call_for length (Z.max 20 (80 * length / 100)) c) = Raise e ->
  safe_generate_summary text length
  = (Raise e,
     EvPipeline p
     :: map (fun chunk =>
               EvSummarize p
                 (call_for length (Z.max 20 (80 * length / 100)) chunk))
            (pre ++ [c])).
Proof.
  intros Hv Hp Hc HF He.
  rewrite (safe_generate_summary_eq text length Hp Hc).
  now rewrite (@summarize_chunks_fail _ p length _ pre c post raws e
                 (min_length_valid Hv) HF He).
Qed.

(** X11. Whatever the input type, when the acquired text has no word (it
    is empty or all whitespace) and the target is valid, the handler does
    not stop: it builds the pipeline, calls it on nothing, and asks for the
    speech of the empty summary. *)
Theorem wordless_text_reaches_speech (inp : RawInput) (length : Z)
    (text : pystr) (t1 : list event) :
  acquire_text inp = (Ok text, t1) ->
  forallb isspace text = true ->
  valid_target length ->
  exists p,
    on_generate inp length
    = (match gtts_save [] with
       | Ok path => Ok ([], path)
       | Raise e => Raise e
       end,
       t1 ++ [EvPipeline p; EvSpeech []]).
Proof.
  intros Ha Hblank Hv.
  destruct (blank_text_summary text Hblank Hv) as [p [_ [_ Hs]]].
  exists p. now rewrite on_generate_eq, Ha, Hs.
Qed.

End Outcomes.

(** X14. For a valid target, [safe_generate_summary] builds exactly one
    pipeline per call, whatever the text (even one without words), and
    which one depends on the target alone: flan-t5-base for 60,
    pegasus-cnn_dailymail for 150, led-large-book-summary for 500. *)
Theorem one_pipeline_per_request {env : Env} (text : pystr) (length : Z) :
  valid_target length ->
  pipelines_of (snd (safe_generate_summary text length))
  = [if (length =? 60)%Z then flan_t5
     else if (length =? 150)%Z then pegasus
     else led_large].
Proof.
  intros Hv. destruct (valid_request text Hv) as [p [chunks [Hp [_ Hc]]]].
  pose proof (min_length_valid Hv) as Hlo.
  destruct (summarize_chunks_trace p length Hlo chunks) as [n [_ [Htr _]]].
  assert (Hone : pipelines_of (snd (safe_generate_summary text length)) = [p]).
  { rewrite (safe_generate_summary_eq text length Hp Hc).
    destruct (summarize_chunks p length chunks) as [[ss|e] tr];
      simpl in *; subst tr;
      now rewrite (proj1 (proj2 (summarize_events p _ (firstn n chunks)))). }
  rewrite Hone. f_equal.
  destruct Hv as [-> | [-> | ->]]; now injection Hp as <-.
Qed.

(** *** Leading and trailing whitespace *)

Lemma lstrip_app_nonspace (u : pystr) (c : codepoint) :
  isspace c = false -> lstrip (u ++ [c]) = lstrip u ++ [c].
Proof.
  intros Hc. induction u as [|x u IH]; simpl; [now rewrite Hc|].
  destruct (isspace x); [exact IH | reflexivity].
Qed.

Lemma lstrip_head (s : pystr) :
  lstrip s = [] \/ exists c t, lstrip s = c :: t /\ isspace c = false.
Proof.
  induction s as [|x s IH]; simpl; [now left|].
  destruct (isspace x) eqn:Hx; [exact IH|]. right. now exists x, s.
Qed.

Lemma rstrip_cons (c : codepoint) (t : pystr) :
  isspace c = false -> rstrip (c :: t) = c :: rstrip t.
Proof.
  intros Hc. unfold rstrip. simpl rev at 2.
  rewrite lstrip_app_nonspace by exact Hc.
  now rewrite rev_app_distr.
Qed.

Lemma rstrip_last (t : pystr) :
  rstrip t = [] \/ exists u d, rstrip t = u ++ [d] /\ isspace d = false.
Proof.
  unfold rstrip. destruct (lstrip_head (rev t)) as [-> | [c [t' [-> Hc]]]].
  - now left.
  - right. now exists (rev t'), c.
Qed.

Lemma edges_trimmed (s : pystr) : edges s -> trimmed s.
Proof.
  intros [[c [t [Hs Hc]]] [u [d [Hs' Hd]]]]. unfold trimmed, strip.
  replace (lstrip s) with s by (subst s; simpl; now rewrite Hc).
  rewrite Hs'. unfold rstrip. rewrite rev_app_distr. simpl.
  rewrite Hd. simpl. now rewrite rev_involutive.
Qed.

Lemma strip_edges (s : pystr) : strip s <> [] -> edges (strip s).
Proof.
  unfold strip. intros Hne.
  destruct (lstrip_head s) as [E | [c [t [E Hc]]]]; rewrite E in *.
  - now contradiction Hne.
  - split.
    + rewrite rstrip_cons by exact Hc. now exists c, (rstrip t).
    + destruct (rstrip_last (c :: t)) as [E' | H]; [contradiction | exact H].
Qed.

Lemma join_edges (xs : list pystr) :
  xs <> [] -> Forall edges xs -> edges (join space xs).
Proof.
  intros Hne HF. induction HF as [|x xs Hx HF IH]; [contradiction|].
  destruct xs as [|y xs]; [exact Hx|].
  change (join space (x :: y :: xs))
    with (x ++ space ++ join space (y :: xs)).
  destruct Hx as [[c [t [-> Hc]]] _].
  destruct IH as [_ [u [d [-> Hd]]]]; [discriminate|].
  split.
  - now exists c, (t ++ space ++ u ++ [d]).
  - exists ((c :: t) ++ space ++ u), d. split; [|exact Hd].
    now rewrite <- !app_assoc.
Qed.

(** X12. Stripping is idempotent: a stripped string has no leading or
    trailing whitespace left.  So, for a valid target and a capability
    none of whose answers is blank, the summary [safe_generate_summary]
    returns neither starts nor ends with whitespace. *)
Theorem final_summary_trimmed {env : Env} (text : pystr) (length : Z)
    (final : pystr) :
  valid_target length ->
  (forall p c raw, summarize p c = Ok raw -> has_nonspace raw = true) ->
  fst (safe_generate_summary text length) = Ok final ->
  trimmed final /\ forall s, trimmed (strip s).
Proof.
  intros Hv Hcap Hfinal. split.
  - destruct (valid_request text Hv) as [p [chunks [Hp [_ Hc]]]].
    pose proof (min_length_valid Hv) as Hlo.
    rewrite (safe_generate_summary_eq text length Hp Hc) in Hfinal.
    destruct (summarize_chunks p length chunks) as [[ss|e] tr] eqn:Hs;
      [|discriminate].
    simpl in Hfinal. injection Hfinal as <-.
    destruct (summarize_chunks_inv p length Hlo chunks (summaries := ss))
      as [raws [HF ->]]; [now rewrite Hs|].
    destruct raws as [|raw raws]; [reflexivity|].
    apply edges_trimmed, join_edges; [discriminate|].
    clear Hs Hc. apply Forall_map.
    induction HF as [|chunk r chunks' raws' Hr _ IH]; constructor.
    + apply strip_edges, strip_nonempty. exact (Hcap _ _ _ Hr).
    + exact IH.
  - intros s. destruct (strip s) as [|c t] eqn:E; [reflexivity|].
    rewrite <- E. apply edges_trimmed, strip_edges. now rewrite E.
Qed.

(** *** The minimum length *)

(** X13. For every target from 0 to 10000 the floating-point expression
    [int(length * 0.8)] is exactly the floor of 80% of the target, so
    [min_length] is [max(20, floor(0.8 * length))]; it is at most the
    maximum length exactly when the target is at least 20. *)
Theorem min_length_is_floor_80 (length : Z) :
  (0 <= length <= 10000)%Z ->
  min_length_for length = (Ok (Z.max 20 (80 * length / 100)), [])
  /\ ((Z.max 20 (80 * length / 100) <= length)%Z <-> (20 <= length)%Z).
Proof.
  intros Hrange. split.
  2:{ assert (Hd : (80 * length / 100 <= length)%Z)
        by (apply Z.div_le_upper_bound; lia).
      revert Hd. generalize (80 * length / 100)%Z. intros q Hd. lia. }
  assert (Hall : forallb floor_80_exact
                   (map Z.of_nat (seq 0 (Z.to_nat 10001))) = true)
    by (vm_compute; reflexivity).
  assert (Hin : In length (map Z.of_nat (seq 0 (Z.to_nat 10001)))).
  { apply in_map_iff. exists (Z.to_nat length). split; [lia|].
    apply in_seq. lia. }
  pose proof (proj1 (forallb_forall _ _) Hall length Hin) as H.
  unfold floor_80_exact in H. unfold min_length_for.
  destruct (PyFloat.int_mul_0_8 length) as [v|]; [|discriminate].
  apply Z.eqb_eq in H. now subst v.
Qed.

(** *** The statements at concrete inputs, continued *)

Lemma error_shown_iff_payload_missing_witness :
  payload_missing (InPDF None) = true /\
  @on_generate example_env (InPDF None) 60
  = (Raise StopException, [EvStError "Please provide a valid input."]).
Proof.
  split; [reflexivity|].
  apply (proj2 (error_shown_iff_payload_missing
                  (env := example_env) (InPDF None) 60)).
  reflexivity.
Defined.


(** The PDF of three pages, the second without text. *)
Example pdf_three_pages :
  @extract_text_from_pdf documents_env []
  = (Ok (of_string "first page  third  page"), [EvPdfReader []])
  /\ split (of_string "first page  third  page")
     = map of_string ["first"; "page"; "third"; "page"]%string.
Proof. split; reflexivity. Qed.

Lemma url_text_words_witness :
  @requests_get documents_env example_url = Ok (of_string "<html>...</html>")
  /\ exists text,
       @extract_text_from_url documents_env example_url
       = (Ok text, [EvRequest example_url])
       /\ split text
          = flat_map (fun p => split (get_text p))
              (find_all "p"
                 (@html_parser documents_env (of_string "<html>...</html>"))).
Proof.
  split; [reflexivity|].
  apply (url_text_words (env := documents_env)). reflexivity.
Defined.

(** The page with two paragraphs: the heading is dropped, the bold text
    kept. *)
Example url_two_paragraphs :
  @extract_text_from_url documents_env example_url
  = (Ok (of_string "One bold  two"), [EvRequest example_url]).
Proof. reflexivity. Qed.

Lemma digest_text_words_witness :
  truthy hello_world = true
  /\ exists text,
       @acquire_text example_env (InDigest hello_world) = (Ok text, [])
       /\ split text = preamble_words ++ split hello_world
       /\ word_count text = 15 + word_count hello_world.
Proof.
  split; [reflexivity|].
  apply (digest_text_words (env := example_env)). reflexivity.
Defined.

Lemma acquisition_failure_aborts_witness :
  @acquire_text offline_env (InURL example_url)
  = (Raise (ExternalError "requests: ConnectionError"),
     [EvRequest example_url])
  /\ @on_generate offline_env (InURL example_url) 60
     = (Raise (ExternalError "requests: ConnectionError"),
        [EvRequest example_url])
  /\ pipelines_of [EvRequest example_url] = []
  /\ calls_of [EvRequest example_url] = []
  /\ speech_of [EvRequest example_url] = [].
Proof.
  split; [reflexivity|].
  apply (acquisition_failure_aborts (env := offline_env)). reflexivity.
Defined.

Lemma invalid_target_after_acquisition_witness :
  @acquire_text documents_env (InURL example_url)
  = (Ok (of_string "One bold  two"), [EvRequest example_url])
  /\ (99 <> 60)%Z /\ (99 <> 150)%Z /\ (99 <> 500)%Z
  /\ @on_generate documents_env (InURL example_url) 99
     = (Raise (ValueError "Invalid summary length."),
        [EvRequest example_url]).
Proof.
  split; [reflexivity|]. repeat (split; [discriminate|]).
  apply (invalid_target_after_acquisition (env := documents_env))
    with (text := of_string "One bold  two");
    solve [reflexivity | discriminate].
Defined.

Lemma short_text_single_call_witness :
  valid_target 60 /\ 1 <= word_count ragged_text <= 700
  /\ exists p,
       let c := call_for 60 (Z.max 20 (80 * 60 / 100))
                         (join space (split ragged_text)) in
       @safe_generate_summary example_env ragged_text 60
       = (match @summarize example_env p c with
          | Ok raw => Ok (strip raw)
          | Raise e => Raise e
          end,
          [EvPipeline p; EvSummarize p c]).
Proof.
  assert (Hwc : 1 <= word_count ragged_text <= 700)
    by (split; apply Nat.leb_le; reflexivity).
  split; [now left|]. split; [exact Hwc|].
  apply (short_text_single_call (env := example_env)); [now left | exact Hwc].
Defined.

Lemma chunk_failure_aborts_witness :
  let lo := Z.max 20 (80 * 60 / 100) in
  let full := join space (repeat (of_string "w") 700) in
  valid_target 60
  /\ get_summarizer 60 = (Ok flan_t5, [EvPipeline flan_t5])
  /\ chunk_text seven_hundred_one_words (max_input_words flan_t5)
     = (Ok ([full] ++ of_string "w" :: []), [])
  /\ Forall2 (fun chunk raw =>
                @summarize flaky_env flan_t5 (call_for 60 lo chunk) = Ok raw)
             [full] [of_string "  The gist. "]
  /\ @summarize flaky_env flan_t5 (call_for 60 lo (of_string "w"))
     = Raise (ExternalError "transformers: IndexError")
  /\ @safe_generate_summary flaky_env seven_hundred_one_words 60
     = (Raise (ExternalError "transformers: IndexError"),
        EvPipeline flan_t5
        :: map (fun chunk => EvSummarize flan_t5 (call_for 60 lo chunk))
               ([full] ++ [of_string "w"])).
Proof.
  cbv zeta.
  assert (H1 : valid_target 60) by now left.
  assert (H2 : get_summarizer 60 = (Ok flan_t5, [EvPipeline flan_t5]))
    by reflexivity.
  assert (H3 : chunk_text seven_hundred_one_words (max_input_words flan_t5)
               = (Ok ([join space (repeat (of_string "w") 700)]
                      ++ of_string "w" :: []), []))
    by (vm_compute; reflexivity).
  assert (H4 : Forall2
                 (fun chunk raw =>
                    @summarize flaky_env flan_t5
                      (call_for 60 (Z.max 20 (80 * 60 / 100)) chunk) = Ok raw)
                 [join space (repeat (of_string "w") 700)]
                 [of_string "  The gist. "])
    by (constructor; [vm_compute; reflexivity | constructor]).
  assert (H5 : @summarize flaky_env flan_t5
                 (call_for 60 (Z.max 20 (80 * 60 / 100)) (of_string "w"))
               = Raise (ExternalError "transformers: IndexError"))
    by reflexivity.
  repeat (split; [assumption|]).
  apply (chunk_failure_aborts (env := flaky_env))
    with (post := []) (raws := [of_string "  The gist. "]); assumption.
Defined.

Lemma wordless_text_reaches_speech_witness :
  @acquire_text example_env (InText blank_text) = (Ok blank_text, [])
  /\ forallb isspace blank_text = true
  /\ valid_target 60
  /\ exists p,
       @on_generate example_env (InText blank_text) 60
       = (match @gtts_save example_env [] with
          | Ok path => Ok ([], path)
          | Raise e => Raise e
          end,
          [] ++ [EvPipeline p; EvSpeech []]).
Proof.
  split; [reflexivity|]. split; [reflexivity|]. split; [now left|].
  apply (wordless_text_reaches_speech (env := example_env))
    with (text := blank_text); solve [reflexivity | now left].
Defined.

Lemma final_summary_trimmed_witness :
  valid_target 60
  /\ (forall p c raw,
        @summarize example_env p c = Ok raw -> has_nonspace raw = true)
  /\ fst (@safe_generate_summary example_env hello_world 60)
     = Ok (of_string "The gist.")
  /\ trimmed (of_string "The gist.") /\ forall s, trimmed (strip s).
Proof.
  assert (Hcap : forall p c raw,
             @summarize example_env p c = Ok raw -> has_nonspace raw = true)
    by (intros p c raw [= <-]; reflexivity).
  split; [now left|]. split; [exact Hcap|]. split; [reflexivity|].
  apply (final_summary_trimmed (env := example_env) hello_world (length := 60));
    [now left | exact Hcap | reflexivity].
Defined.

Lemma min_length_is_floor_80_witness :
  (0 <= 150 <= 10000)%Z
  /\ min_length_for 150 = (Ok (Z.max 20 (80 * 150 / 100)), [])
  /\ ((Z.max 20 (80 * 150 / 100) <= 150)%Z <-> (20 <= 150)%Z).
Proof.
  split; [lia|]. apply min_length_is_floor_80. lia.
Defined.

Lemma one_pipeline_per_request_witness :
  valid_target 500
  /\ pipelines_of (snd (@safe_generate_summary example_env blank_text 500))
     = [if (500 =? 60)%Z then flan_t5
        else if (500 =? 150)%Z then pegasus
        else led_large].
Proof.
  split; [right; now right|].
  apply (one_pipeline_per_request (env := example_env)). right. now right.
Defined.

End MoreFacts.
